(** * Sequential and parallel model training: a verified model of the
    regression notebook

    The notebook trains [n_models] random forests, first one after the
    other ([run_sequential]) and then as Ray tasks ([run_parallel]), and
    picks the best result with [min(mse_scores, key=itemgetter(1))].

    Python [int] is [Z]; Python [float] is the kernel's binary64 [float];
    exceptions are values of [exn] carried by [outcome].  scikit-learn is an
    interface ([Sklearn]); Ray's object store, task handles and scheduler
    are modelled from the specification's three primitives. *)

From Stdlib Require Import ZArith List Floats Lia.
From stdpp Require Import gmap list strings.
Import ListNotations.

Set Warnings "-inexact-float".
Open Scope Z_scope.

(** ** Python outcomes *)

(** A raised exception: its class name and its message. *)
Inductive exn := PyErr (cls msg : string).

(** What evaluating a Python expression yields. *)
Inductive outcome (A : Type) :=
| Return (a : A)
| Raise (e : exn).
Arguments Return {A} a.
Arguments Raise {A} e.

Definition ValueError (msg : string) : exn := PyErr "ValueError" msg.
Definition TypeError (msg : string) : exn := PyErr "TypeError" msg.

(** ** Builtins: [range], [itemgetter(1)], [min(iterable, key=...)] *)

(** [range(n)]: 0, 1, ..., n-1; empty when [n <= 0]. *)
Definition range (n : Z) : list Z := seqZ 0 n.

(** [itemgetter(1)] applied to a pair. *)
Definition itemgetter_1 {A B : Type} (t : A * B) : B := snd t.

Section Min.
Context {A K : Type} (lt : K -> K -> bool) (key : A -> K).

(** One iteration of the loop of [min]: the first item initialises the
    running minimum, a later item replaces it when [key(item) < key(best)]. *)
Definition min_step (acc : option (A * K)) (item : A) : option (A * K) :=
  let val := key item in
  match acc with
  | None => Some (item, val)
  | Some (_, minval) => if lt val minval then Some (item, val) else acc
  end.

(** [min(iterable, key=key)]; an empty iterable raises [ValueError]. *)
Definition py_min (iterable : list A) : outcome A :=
  match fold_left min_step iterable None with
  | Some (minitem, _) => Return minitem
  | None => Raise (ValueError "min() arg is an empty sequence")
  end.

End Min.

(** ** Job results *)

(** [(n_estimators, mse_score)]. *)
Definition JobResult : Type := Z * float.
Definition ResultSet : Type := list JobResult.

(** [best = min(mse_scores, key=itemgetter(1))]. *)
Definition best (mse_scores : ResultSet) : outcome JobResult :=
  py_min PrimFloat.ltb itemgetter_1 mse_scores.

(** The hyperparameter of job [j]: [n_estimators=8 + 4 * j]. *)
Definition n_estimators_of (j : Z) : Z := 8 + 4 * j.

(** The parameters the comprehensions of both runners go through. *)
Definition job_specs (n_models : Z) : list Z := n_estimators_of <$> range n_models.

Definition NUM_MODELS : Z := 20.

(** The example ResultSet of the notebook. *)
Definition example_scores : ResultSet :=
  [(8, 0.2983%float); (12, 0.2826%float); (16, 0.2761%float); (24, 0.2694%float)].

(** ** scikit-learn, as the notebook uses it *)

Class Sklearn := {
  DataFrame : Type;
  Series : Type;
  Array : Type;
  Model : Type;
  (** [RandomForestRegressor(n_estimators=..., random_state=...)] *)
  RandomForestRegressor : Z -> Z -> Model;
  (** [model.fit(X, y)]: the fitted estimator, or the exception raised *)
  fit : Model -> DataFrame -> Series -> outcome Model;
  (** [model.predict(X)] *)
  predict : Model -> DataFrame -> outcome Array;
  (** [mean_squared_error(y_true, y_pred)] *)
  mean_squared_error : Series -> Array -> outcome float
}.

(** ** The Python heap *)

Definition loc := nat.

Section Harness.
Context `{Sklearn}.

Inductive pyobj :=
| ODataFrame (d : DataFrame)
| OSeries (s : Series)
| OArray (a : Array)
| OModel (m : Model).

Abbreviation heap := (gmap loc pyobj).

(** Computations of the interpreter: they read and write the heap and
    return or raise. *)
Definition Py (A : Type) : Type := heap -> outcome A * heap.

Definition ret {A} (a : A) : Py A := fun h => (Return a, h).
Definition raise {A} (e : exn) : Py A := fun h => (Raise e, h).
Definition bind {A B} (c : Py A) (k : A -> Py B) : Py B :=
  fun h => match c h with
           | (Return a, h') => k a h'
           | (Raise e, h') => (Raise e, h')
           end.
Definition lift {A} (o : outcome A) : Py A := fun h => (o, h).

Notation "x <- c1 ;; c2" := (bind c1 (fun x => c2))
  (at level 100, c1 at next level, right associativity).

(** Allocation of a new object. *)
Definition new (o : pyobj) : Py loc :=
  fun h => let l := fresh (dom h) in (Return l, <[l := o]> h).

(** In-place update of an object. *)
Definition update (l : loc) (o : pyobj) : Py unit :=
  fun h => (Return tt, <[l := o]> h).

Definition load_frame (l : loc) : Py DataFrame :=
  fun h => match h !! l with
           | Some (ODataFrame d) => (Return d, h)
           | _ => (Raise (TypeError "expected a DataFrame"), h)
           end.

Definition load_series (l : loc) : Py Series :=
  fun h => match h !! l with
           | Some (OSeries s) => (Return s, h)
           | _ => (Raise (TypeError "expected a Series"), h)
           end.

Definition load_array (l : loc) : Py Array :=
  fun h => match h !! l with
           | Some (OArray a) => (Return a, h)
           | _ => (Raise (TypeError "expected an ndarray"), h)
           end.

Definition load_model (l : loc) : Py Model :=
  fun h => match h !! l with
           | Some (OModel m) => (Return m, h)
           | _ => (Raise (TypeError "expected an estimator"), h)
           end.

(** [model.fit(X, y)] fits the estimator in place. *)
Definition method_fit (model X y : loc) : Py unit :=
  m <- load_model model ;;
  Xv <- load_frame X ;;
  yv <- load_series y ;;
  m' <- lift (fit m Xv yv) ;;
  update model (OModel m').

(** [model.predict(X)] returns a new array. *)
Definition method_predict (model X : loc) : Py loc :=
  m <- load_model model ;;
  Xv <- load_frame X ;;
  a <- lift (predict m Xv) ;;
  new (OArray a).

Definition call_mean_squared_error (y_true y_pred : loc) : Py float :=
  yt <- load_series y_true ;;
  yp <- load_array y_pred ;;
  lift (mean_squared_error yt yp).

(** [train_and_score_model]; the wall-time measurement and the [print] of
    the original only write to the console and are left out. *)
Definition train_and_score_model
  (train_set test_set train_labels test_labels : loc) (n_estimators : Z)
  : Py JobResult :=
  model <- new (OModel (RandomForestRegressor n_estimators 201)) ;;
  _ <- method_fit model train_set train_labels ;;
  y_pred <- method_predict model test_set ;;
  score <- call_mean_squared_error test_labels y_pred ;;
  ret (n_estimators, score).

(** A list comprehension [[f(j) for j in js]]: left to right, the first
    exception ends it. *)
Fixpoint comprehension {A B} (f : A -> Py B) (js : list A) : Py (list B) :=
  match js with
  | [] => ret []
  | j :: js' => r <- f j ;; rs <- comprehension f js' ;; ret (r :: rs)
  end.

(** The module-level names bound by [train_test_split]. *)
Record globals := {
  X_train : loc;
  X_test : loc;
  y_train : loc;
  y_test : loc
}.

Definition run_sequential (g : globals) (n_models : Z) : Py ResultSet :=
  comprehension
    (fun j =>
       train_and_score_model (X_train g) (X_test g) (y_train g) (y_test g)
         (8 + 4 * j))
    (range n_models).

(** The values the four globals hold. *)
Record SharedInput := {
  train_set : DataFrame;
  test_set : DataFrame;
  train_labels : Series;
  test_labels : Series
}.

(** The heap holds the shared input [d] at the globals [g]. *)
Definition holds (h : heap) (g : globals) (d : SharedInput) : Prop :=
  h !! X_train g = Some (ODataFrame (train_set d)) /\
  h !! X_test g = Some (ODataFrame (test_set d)) /\
  h !! y_train g = Some (OSeries (train_labels d)) /\
  h !! y_test g = Some (OSeries (test_labels d)).

(** The cell [X_train, X_test, y_train, y_test = train_test_split(...)]:
    four new objects. *)
Definition prepare_dataset (d : SharedInput) (h : heap) : globals * heap :=
  let l1 := fresh (dom h) in
  let h1 := <[l1 := ODataFrame (train_set d)]> h in
  let l2 := fresh (dom h1) in
  let h2 := <[l2 := ODataFrame (test_set d)]> h1 in
  let l3 := fresh (dom h2) in
  let h3 := <[l3 := OSeries (train_labels d)]> h2 in
  let l4 := fresh (dom h3) in
  let h4 := <[l4 := OSeries (test_labels d)]> h3 in
  ({| X_train := l1; X_test := l2; y_train := l3; y_test := l4 |}, h4).

(** The job executor as a function of the values alone: what one call of
    [train_and_score_model] computes from the shared input. *)
Definition executor (d : SharedInput) (n_estimators : Z) : outcome JobResult :=
  match fit (RandomForestRegressor n_estimators 201) (train_set d) (train_labels d) with
  | Raise e => Raise e
  | Return m =>
    match predict m (test_set d) with
    | Raise e => Raise e
    | Return a =>
      match mean_squared_error (test_labels d) a with
      | Raise e => Raise e
      | Return score => Return (n_estimators, score)
      end
    end
  end.

(** Left-to-right evaluation of a list of outcomes: all results, or the
    first exception. *)
Fixpoint sequence {A} (os : list (outcome A)) : outcome (list A) :=
  match os with
  | [] => Return []
  | Raise e :: _ => Raise e
  | Return a :: os' =>
    match sequence os' with
    | Return l => Return (a :: l)
    | Raise e => Raise e
    end
  end.

(** ** Ray *)

(** Modelled from the spec: Ray ([ray.put], [.remote], [ray.get]) is a
    library the notebook calls, its code is not in the sources.  The
    concurrency substrate is an external collaborator (section 6) with three
    primitives: [put(value)] gives a reference usable by submitted jobs,
    [submit(job, shared_inputs)] gives a pending-result handle without
    blocking, [collect(handles)] blocks until all resolve.  Both kinds of
    token are Ray's [ObjectRef]. *)
Definition ObjectRef := nat.

(** Modelled from the spec: Ray's record of a submitted job, here one call
    of the remote [train_and_score_model] with the arguments it was given. *)
Record task := {
  train_set_ref : ObjectRef;
  test_set_ref : ObjectRef;
  train_labels_ref : ObjectRef;
  test_labels_ref : ObjectRef;
  n_estimators : Z
}.

(** Modelled from the spec: the state of a handle in Ray's store is the
    sum type {Pending, Resolved(value), Failed(error)} of section 9. *)
Inductive handle :=
| Pending
| Resolved (r : JobResult)
| Failed (e : exn).

(** Modelled from the spec: Ray's cluster holds the objects that were put,
    the submitted tasks with their handles, and the completion order the
    workers will follow: [oracle] lists, for each later call into Ray, the
    tasks the workers finish during it.  Any oracle is possible: completion
    order across concurrent workers is unspecified (section 4.4). *)
Record cluster := {
  objects : gmap ObjectRef pyobj;
  tasks : gmap ObjectRef (task * handle);
  oracle : list (list ObjectRef)
}.

(** Modelled from the spec: [ray.init()] starts with an empty store. *)
Definition ray_init (sched : list (list ObjectRef)) : cluster :=
  {| objects := ∅; tasks := ∅; oracle := sched |}.

Definition fresh_ref (c : cluster) : ObjectRef :=
  fresh (dom (objects c) ∪ dom (tasks c)).

(** The heap of a worker process: its own copies of the four arguments. *)
Definition worker_heap (o1 o2 o3 o4 : pyobj) : heap :=
  <[3%nat := o4]> (<[2%nat := o3]> (<[1%nat := o2]> (<[0%nat := o1]> ∅))).

(** Modelled from the spec: a Ray worker resolves the references the task
    was given and runs the body of [train_and_score_model] (the remote function
    is the same function) in its own process; a reference to no object
    fails the task. *)
Definition run_task (objs : gmap ObjectRef pyobj) (t : task) : handle :=
  match objs !! train_set_ref t, objs !! test_set_ref t,
        objs !! train_labels_ref t, objs !! test_labels_ref t with
  | Some o1, Some o2, Some o3, Some o4 =>
    match fst (train_and_score_model 0%nat 1%nat 2%nat 3%nat (n_estimators t)
                 (worker_heap o1 o2 o3 o4)) with
    | Return r => Resolved r
    | Raise e => Failed e
    end
  | _, _, _, _ => Failed (PyErr "ObjectLostError" "object not in the store")
  end.

(** Modelled from the spec: a Ray worker completes task [r], if it is
    pending. *)
Definition complete (c : cluster) (r : ObjectRef) : cluster :=
  match tasks c !! r with
  | Some (t, Pending) =>
    {| objects := objects c;
       tasks := <[r := (t, run_task (objects c) t)]> (tasks c);
       oracle := oracle c |}
  | _ => c
  end.

Definition workers (done : list ObjectRef) (c : cluster) : cluster :=
  fold_left complete done c.

(** Modelled from the spec: the progress of Ray's workers during one
    call. *)
Definition tick (c : cluster) : cluster :=
  match oracle c with
  | [] => c
  | done :: rest =>
    workers done {| objects := objects c; tasks := tasks c; oracle := rest |}
  end.

(** Modelled from the spec: [ray.put(value)]. *)
Definition ray_put (o : pyobj) (c : cluster) : ObjectRef * cluster :=
  let r := fresh_ref c in
  (r, tick {| objects := <[r := o]> (objects c); tasks := tasks c;
              oracle := oracle c |}).

(** Modelled from the spec: [train_and_score_model.remote(...)], the
    non-blocking submission. *)
Definition remote (t : task) (c : cluster) : ObjectRef * cluster :=
  let r := fresh_ref c in
  (r, tick {| objects := objects c; tasks := <[r := (t, Pending)]> (tasks c);
              oracle := oracle c |}).

(** Modelled from the spec: the outcome behind a handle of Ray's store,
    once resolved. *)
Definition resolved (ts : gmap ObjectRef (task * handle)) (r : ObjectRef)
  : option (outcome JobResult) :=
  match ts !! r with
  | Some (_, Resolved v) => Some (Return v)
  | Some (_, Failed e) => Some (Raise e)
  | _ => None
  end.

(** Modelled from the spec: [ray.get(refs)] blocks until every handle is
    resolved (the tasks still pending among them are completed), then
    gives the results in the order of [refs], or raises the failure of the
    first failed handle.  [None]: some handle never resolves. *)
Definition ray_get (refs : list ObjectRef) (c : cluster)
  : option (outcome ResultSet) * cluster :=
  let c1 := workers refs (tick c) in
  (sequence <$> mapM (resolved (tasks c1)) refs, c1).

(** A list comprehension whose body calls into Ray. *)
Fixpoint ray_comprehension {A B} (f : A -> cluster -> B * cluster)
  (js : list A) (c : cluster) : list B * cluster :=
  match js with
  | [] => ([], c)
  | j :: js' =>
    let '(r, c1) := f j c in
    let '(rs, c2) := ray_comprehension f js' c1 in
    (r :: rs, c2)
  end.

(** The module-level names bound by the four [ray.put] calls. *)
Record ray_globals := {
  X_train_ref : ObjectRef;
  X_test_ref : ObjectRef;
  y_train_ref : ObjectRef;
  y_test_ref : ObjectRef
}.

Definition run_parallel (g : ray_globals) (n_models : Z) (c : cluster)
  : option (outcome ResultSet) * cluster :=
  let '(results_ref, c1) :=
    ray_comprehension
      (fun j =>
         remote {| train_set_ref := X_train_ref g;
                   test_set_ref := X_test_ref g;
                   train_labels_ref := y_train_ref g;
                   test_labels_ref := y_test_ref g;
                   n_estimators := 8 + 4 * j |})
      (range n_models) c in
  ray_get results_ref c1.

(** The cell [X_train_ref = ray.put(X_train)] ... [y_test_ref =
    ray.put(y_test)]; [None] if a global is unbound. *)
Definition put_shared (g : globals) (h : heap) (c : cluster)
  : option (ray_globals * cluster) :=
  o1 ← h !! X_train g;
  o2 ← h !! X_test g;
  o3 ← h !! y_train g;
  o4 ← h !! y_test g;
  let '(r1, c1) := ray_put o1 c in
  let '(r2, c2) := ray_put o2 c1 in
  let '(r3, c3) := ray_put o3 c2 in
  let '(r4, c4) := ray_put o4 c3 in
  Some ({| X_train_ref := r1; X_test_ref := r2; y_train_ref := r3;
           y_test_ref := r4 |}, c4).

(** The store holds the shared input [d] at the references [g]. *)
Definition shares (c : cluster) (g : ray_globals) (d : SharedInput) : Prop :=
  objects c !! X_train_ref g = Some (ODataFrame (train_set d)) /\
  objects c !! X_test_ref g = Some (ODataFrame (test_set d)) /\
  objects c !! y_train_ref g = Some (OSeries (train_labels d)) /\
  objects c !! y_test_ref g = Some (OSeries (test_labels d)).

(** ** What the runners are compared against *)

(** The ResultSet the job executor determines for [n_models] jobs: the
    results of the jobs in submission order, or the exception of the first
    job that fails. *)
Definition expected (d : SharedInput) (n_models : Z) : outcome ResultSet :=
  sequence (executor d <$> job_specs n_models).

(** The task [run_parallel] submits for index [j]. *)
Definition job (g : ray_globals) (j : Z) : task :=
  {| train_set_ref := X_train_ref g;
     test_set_ref := X_test_ref g;
     train_labels_ref := y_train_ref g;
     test_labels_ref := y_test_ref g;
     n_estimators := 8 + 4 * j |}.

(** Handle [r] of cluster [c] stands for task [t]: still pending, or
    resolved with what [t] computes from the objects [objs]. *)
Definition submitted (objs : gmap ObjectRef pyobj) (c : cluster)
  (r : ObjectRef) (t : task) : Prop :=
  exists st, tasks c !! r = Some (t, st) /\ (st = Pending \/ st = run_task objs t).

(** Handle [r] is resolved with what [t] computes from [objs]. *)
Definition completed (objs : gmap ObjectRef pyobj) (c : cluster)
  (r : ObjectRef) (t : task) : Prop :=
  tasks c !! r = Some (t, run_task objs t).

End Harness.

(** ** A small instance of the scikit-learn interface

    A stand-in regressor over one-column data, used to run the harness on
    concrete inputs: it predicts the mean of the training labels shifted by
    [1 / n_estimators], and refuses to fit when [n_estimators] times the
    number of training rows exceeds a budget of 40. *)
Module Toy.

Definition float_of_Z (z : Z) : float := PrimFloat.of_uint63 (Uint63.of_Z z).

Definition total (l : list float) : float := fold_left PrimFloat.add l 0%float.

Definition mean (l : list float) : float :=
  (total l / float_of_Z (Z.of_nat (length l)))%float.

Record forest := {
  n_trees : Z;
  random_state : Z;
  fitted : option float
}.

Definition toy_fit (m : forest) (X y : list float) : outcome forest :=
  if negb (length X =? length y)%nat then
    Raise (ValueError "inconsistent numbers of samples")
  else if 40 <? n_trees m * Z.of_nat (length X) then
    Raise (PyErr "MemoryError" "out of budget")
  else
    Return {| n_trees := n_trees m; random_state := random_state m;
              fitted := Some (mean y + 1 / float_of_Z (n_trees m))%float |}.

Definition toy_predict (m : forest) (X : list float) : outcome (list float) :=
  match fitted m with
  | Some mu => Return (map (fun _ => mu) X)
  | None => Raise (PyErr "NotFittedError" "call fit first")
  end.

Definition toy_mse (y_true y_pred : list float) : outcome float :=
  if negb (length y_true =? length y_pred)%nat then
    Raise (ValueError "inconsistent numbers of samples")
  else
    Return (mean (map (fun p => ((fst p - snd p) * (fst p - snd p))%float)
                    (combine y_true y_pred))).

#[local] Instance sklearn : Sklearn := {|
  DataFrame := list float;
  Series := list float;
  Array := list float;
  Model := forest;
  RandomForestRegressor := fun n rs =>
    {| n_trees := n; random_state := rs; fitted := None |};
  fit := toy_fit;
  predict := toy_predict;
  mean_squared_error := toy_mse
|}.

(** Two training rows and two test rows: every job with
    [n_estimators <= 20] fits. *)
Definition small : SharedInput := {|
  train_set := [1; 2]%float;
  test_set := [3; 4]%float;
  train_labels := [0.5; 1.5]%float;
  test_labels := [1; 2]%float
|}.

(** Four training rows: the job with [n_estimators = 8] fits, the one with
    [n_estimators = 12] and all later ones do not. *)
Definition large : SharedInput := {|
  train_set := [1; 2; 3; 4]%float;
  test_set := [3; 4]%float;
  train_labels := [0.5; 1.5; 2.5; 3.5]%float;
  test_labels := [1; 2]%float
|}.


(** The notebook's cells in order, on an empty heap: prepare the dataset,
    start Ray with the given completion order, put the shared input. *)
Definition the_globals (d : SharedInput) : globals :=
  fst (prepare_dataset d ∅).

Definition the_heap (d : SharedInput) : gmap loc pyobj :=
  snd (prepare_dataset d ∅).

Definition the_session (d : SharedInput) (sched : list (list ObjectRef))
  : ray_globals * cluster :=
  default
    ({| X_train_ref := 0; X_test_ref := 0; y_train_ref := 0; y_test_ref := 0 |}%nat,
     ray_init sched)
    (put_shared (the_globals d) (the_heap d) (ray_init sched)).

Definition the_refs (d : SharedInput) : ray_globals := fst (the_session d []).

Definition the_cluster (d : SharedInput) (sched : list (list ObjectRef))
  : cluster :=
  snd (the_session d sched).

(** A completion order: the workers finish the second task before the
    first, and a task that does not exist is skipped. *)
Definition out_of_order : list (list ObjectRef) :=
  [[]; []; []; []; []; [5; 9]; [4]; [6; 5]]%nat.

End Toy.

(** * Properties *)

(** ** Order on binary64 floats

    [<], [<=] and [==] of Python floats are the IEEE comparisons.  The
    facts the selector needs hold for every float, NaN included; totality
    needs both operands not to be NaN. *)

Module FloatOrder.

Ltac cmp_cases :=
  repeat match goal with
  | |- context [Pos.compare_cont Eq ?a ?b] =>
    change (Pos.compare_cont Eq a b) with (Pos.compare a b);
    destruct (Pos.compare_spec a b)
  | H : context [Pos.compare_cont Eq ?a ?b] |- _ =>
    change (Pos.compare_cont Eq a b) with (Pos.compare a b) in H;
    destruct (Pos.compare_spec a b)
  | |- context [Z.compare ?a ?b] => destruct (Z.compare_spec a b)
  | H : context [Z.compare ?a ?b] |- _ => destruct (Z.compare_spec a b)
  end.

Ltac sf_cases :=
  simpl; try discriminate; try reflexivity;
  repeat match goal with
  | s : bool |- _ => destruct s; simpl; try discriminate; try reflexivity
  end;
  cmp_cases; simpl; try discriminate; try reflexivity; try lia.

Lemma SFltb_irrefl (x : spec_float) : SFltb x x = false.
Proof.
  unfold SFltb. destruct x as [s|s| |s m e]; simpl; try reflexivity.
  - destruct s; reflexivity.
  - destruct s; rewrite Z.compare_refl, Pos.compare_cont_refl; reflexivity.
Qed.

Lemma SFltb_trans (x y z : spec_float) :
  SFltb x y = true -> SFltb y z = true -> SFltb x z = true.
Proof.
  unfold SFltb.
  destruct x as [s1|s1| |s1 m1 e1], y as [s2|s2| |s2 m2 e2],
           z as [s3|s3| |s3 m3 e3]; sf_cases.
Qed.

Lemma SFeqb_ltb (x y z : spec_float) :
  SFeqb x y = true -> SFltb y z = true -> SFltb x z = true.
Proof.
  unfold SFeqb, SFltb.
  destruct x as [s1|s1| |s1 m1 e1], y as [s2|s2| |s2 m2 e2],
           z as [s3|s3| |s3 m3 e3]; sf_cases.
Qed.

Lemma SFltb_false_leb (x y : spec_float) :
  x <> S754_nan -> y <> S754_nan -> SFltb x y = false -> SFleb y x = true.
Proof.
  unfold SFltb, SFleb.
  destruct x as [s1|s1| |s1 m1 e1], y as [s2|s2| |s2 m2 e2];
    intros Hx Hy; try congruence; sf_cases.
Qed.

Lemma SFleb_neq_ltb (x y : spec_float) :
  SFleb x y = true -> SFeqb y x = false -> SFltb x y = true.
Proof.
  unfold SFltb, SFleb, SFeqb.
  destruct x as [s1|s1| |s1 m1 e1], y as [s2|s2| |s2 m2 e2]; sf_cases.
Qed.

Lemma is_nan_false (x : float) : is_nan x = false -> Prim2SF x <> S754_nan.
Proof.
  unfold is_nan. rewrite FloatAxioms.eqb_spec. intros Hx Hn. rewrite Hn in Hx.
  discriminate Hx.
Qed.

Lemma ltb_irrefl (x : float) : (x <? x)%float = false.
Proof. rewrite FloatAxioms.ltb_spec. apply SFltb_irrefl. Qed.

Lemma ltb_trans (x y z : float) :
  (x <? y)%float = true -> (y <? z)%float = true -> (x <? z)%float = true.
Proof. rewrite !FloatAxioms.ltb_spec. apply SFltb_trans. Qed.

Lemma eqb_ltb (x y z : float) :
  (x =? y)%float = true -> (y <? z)%float = true -> (x <? z)%float = true.
Proof. rewrite FloatAxioms.eqb_spec, !FloatAxioms.ltb_spec. apply SFeqb_ltb. Qed.

Lemma ltb_false_leb (x y : float) :
  is_nan x = false -> is_nan y = false ->
  (x <? y)%float = false -> (y <=? x)%float = true.
Proof.
  intros Hx Hy. rewrite FloatAxioms.ltb_spec, FloatAxioms.leb_spec.
  apply SFltb_false_leb; apply is_nan_false; assumption.
Qed.

Lemma leb_neq_ltb (x y : float) :
  (x <=? y)%float = true -> (y =? x)%float = false -> (x <? y)%float = true.
Proof. rewrite FloatAxioms.leb_spec, FloatAxioms.eqb_spec, FloatAxioms.ltb_spec. apply SFleb_neq_ltb. Qed.

End FloatOrder.

(** ** The loop of [min] *)

Section MinFacts.
Context {A K : Type} (lt eqv : K -> K -> bool) (key : A -> K).
Hypothesis lt_irrefl : forall x, lt x x = false.
Hypothesis lt_trans :
  forall x y z, lt x y = true -> lt y z = true -> lt x z = true.
Hypothesis eqv_lt :
  forall x y z, eqv x y = true -> lt y z = true -> lt x z = true.

(** The invariant of the loop: the items seen so far are [pre ++ b :: mid],
    none of them has a key below that of the running minimum [b], and none
    before [b] has an equivalent key. *)
Lemma min_loop (rest : list A) : forall (pre : list A) (b : A) (mid : list A),
  (forall x, x ∈ pre ++ b :: mid -> lt (key x) (key b) = false) ->
  (forall x, x ∈ pre -> eqv (key x) (key b) = false) ->
  exists pre' b' post,
    pre ++ b :: mid ++ rest = pre' ++ b' :: post /\
    fold_left (min_step lt key) rest (Some (b, key b)) = Some (b', key b') /\
    (forall x, x ∈ pre ++ b :: mid ++ rest -> lt (key x) (key b') = false) /\
    (forall x, x ∈ pre' -> eqv (key x) (key b') = false).
Proof.
  induction rest as [|x rest IH]; intros pre b mid Hmin Hfirst.
  - exists pre, b, mid. rewrite app_nil_r. auto.
  - simpl. destruct (lt (key x) (key b)) eqn:Hlt.
    + destruct (IH (pre ++ b :: mid) x []) as (pre' & b' & post & Heq & Hf & Hm & Hp).
      * intros y Hy. apply elem_of_app in Hy as [Hy|Hy].
        -- destruct (lt (key y) (key x)) eqn:Hyx; [|reflexivity].
           specialize (Hmin y Hy).
           rewrite (lt_trans _ _ _ Hyx Hlt) in Hmin. discriminate Hmin.
        -- apply list_elem_of_singleton in Hy as ->. apply lt_irrefl.
      * intros y Hy. destruct (eqv (key y) (key x)) eqn:Hyx; [|reflexivity].
        specialize (Hmin y Hy). rewrite (eqv_lt _ _ _ Hyx Hlt) in Hmin.
        discriminate Hmin.
      * exists pre', b', post. rewrite <- app_assoc in Heq, Hm. simpl in Heq, Hm.
        auto.
    + destruct (IH pre b (mid ++ [x])) as (pre' & b' & post & Heq & Hf & Hm & Hp).
      * intros y Hy. rewrite app_comm_cons, app_assoc in Hy.
        apply elem_of_app in Hy as [Hy|Hy]; [auto|].
        apply list_elem_of_singleton in Hy as ->. exact Hlt.
      * exact Hfirst.
      * exists pre', b', post. rewrite <- app_assoc in Heq, Hm. simpl in Heq, Hm.
        auto.
Qed.

(** [min] of a non-empty list returns an item no item's key is below, the
    first among the items with an equivalent key. *)
Lemma py_min_first_minimal (l : list A) :
  l <> [] ->
  exists pre b post,
    l = pre ++ b :: post /\
    py_min lt key l = Return b /\
    (forall x, x ∈ l -> lt (key x) (key b) = false) /\
    (forall x, x ∈ pre -> eqv (key x) (key b) = false).
Proof.
  destruct l as [|a l]; [congruence|]; intros _.
  destruct (min_loop l [] a []) as (pre & b & post & Heq & Hf & Hm & Hp).
  - intros x Hx. apply list_elem_of_singleton in Hx as ->. apply lt_irrefl.
  - intros x Hx. apply elem_of_nil in Hx. contradiction.
  - exists pre, b, post. unfold py_min. simpl in *. rewrite Hf. auto.
Qed.

End MinFacts.

(** ** The sequential runner *)

Section HarnessFacts.
Context `{Sklearn}.
Implicit Types (h : gmap loc pyobj) (d : SharedInput) (g : globals).

Lemma fresh_lookup h : h !! fresh (dom h) = None.
Proof. apply not_elem_of_dom. apply is_fresh. Qed.

Lemma fresh_ne h l o : h !! l = Some o -> fresh (dom h) <> l.
Proof. intros Hl Heq. rewrite <- Heq, fresh_lookup in Hl. discriminate. Qed.

Lemma insert_fresh_subseteq h o : h ⊆ <[fresh (dom h) := o]> h.
Proof. apply insert_subseteq, fresh_lookup. Qed.

Lemma load_frame_run h l x :
  h !! l = Some (ODataFrame x) -> load_frame l h = (Return x, h).
Proof. intros Hl. unfold load_frame. rewrite Hl. reflexivity. Qed.

Lemma load_series_run h l x :
  h !! l = Some (OSeries x) -> load_series l h = (Return x, h).
Proof. intros Hl. unfold load_series. rewrite Hl. reflexivity. Qed.

Lemma load_array_run h l x :
  h !! l = Some (OArray x) -> load_array l h = (Return x, h).
Proof. intros Hl. unfold load_array. rewrite Hl. reflexivity. Qed.

Lemma load_model_run h l x :
  h !! l = Some (OModel x) -> load_model l h = (Return x, h).
Proof. intros Hl. unfold load_model. rewrite Hl. reflexivity. Qed.

(** [model.fit] on a newly made estimator: the estimator is fitted in
    place, or the exception of [fit] is raised. *)
Lemma method_fit_run h model m X y Xv yv :
  h !! model = Some (OModel m) ->
  h !! X = Some (ODataFrame Xv) ->
  h !! y = Some (OSeries yv) ->
  method_fit model X y h =
    match fit m Xv yv with
    | Return m' => (Return tt, <[model := OModel m']> h)
    | Raise e => (Raise e, h)
    end.
Proof.
  intros Hm HX Hy. unfold method_fit, bind.
  rewrite (load_model_run _ _ _ Hm), (load_frame_run _ _ _ HX),
    (load_series_run _ _ _ Hy).
  unfold lift, update. destruct (fit m Xv yv); reflexivity.
Qed.

Lemma method_predict_run h model m X Xv :
  h !! model = Some (OModel m) ->
  h !! X = Some (ODataFrame Xv) ->
  method_predict model X h =
    match predict m Xv with
    | Return a => (Return (fresh (dom h)), <[fresh (dom h) := OArray a]> h)
    | Raise e => (Raise e, h)
    end.
Proof.
  intros Hm HX. unfold method_predict, bind.
  rewrite (load_model_run _ _ _ Hm), (load_frame_run _ _ _ HX).
  unfold lift, new. destruct (predict m Xv); reflexivity.
Qed.

Lemma call_mean_squared_error_run h y_true y_pred yt yp :
  h !! y_true = Some (OSeries yt) ->
  h !! y_pred = Some (OArray yp) ->
  call_mean_squared_error y_true y_pred h = (mean_squared_error yt yp, h).
Proof.
  intros Ht Hp. unfold call_mean_squared_error, bind.
  rewrite (load_series_run _ _ _ Ht), (load_array_run _ _ _ Hp).
  unfold lift. destruct (mean_squared_error yt yp); reflexivity.
Qed.

(** One call of [train_and_score_model] on a heap that holds the shared
    input returns what the executor computes from the values, and leaves
    every object that existed as it was. *)
Lemma train_and_score_model_run h l1 l2 l3 l4 d n :
  h !! l1 = Some (ODataFrame (train_set d)) ->
  h !! l2 = Some (ODataFrame (test_set d)) ->
  h !! l3 = Some (OSeries (train_labels d)) ->
  h !! l4 = Some (OSeries (test_labels d)) ->
  exists h', train_and_score_model l1 l2 l3 l4 n h = (executor d n, h') /\ h ⊆ h'.
Proof.
  intros H1 H2 H3 H4.
  unfold train_and_score_model, executor, bind at 1, new.
  set (model := fresh (dom h)).
  set (h0 := <[model := OModel (RandomForestRegressor n 201)]> h).
  assert (Hsub0 : h ⊆ h0) by apply insert_fresh_subseteq.
  unfold bind at 1.
  rewrite (method_fit_run h0 model _ l1 l3 (train_set d) (train_labels d))
    by (try apply lookup_insert_eq; eapply lookup_weaken; eassumption).
  destruct (fit _ _ _) as [m|e]; [|eauto].
  set (h1 := <[model := OModel m]> h0).
  assert (Hsub1 : h ⊆ h1).
  { unfold h1, h0. rewrite insert_insert_eq. apply insert_fresh_subseteq. }
  unfold bind at 1.
  rewrite (method_predict_run h1 model m l2 (test_set d))
    by (try apply lookup_insert_eq; eapply lookup_weaken; eassumption).
  destruct (predict _ _) as [a|e]; [|eauto].
  set (y_pred := fresh (dom h1)).
  set (h2 := <[y_pred := OArray a]> h1).
  assert (Hsub2 : h ⊆ h2).
  { etrans; [exact Hsub1|]. apply insert_fresh_subseteq. }
  unfold bind.
  rewrite (call_mean_squared_error_run h2 l4 y_pred (test_labels d) a)
    by (try apply lookup_insert_eq; eapply lookup_weaken; eassumption).
  destruct (mean_squared_error _ _); eauto.
Qed.


(** Without any assumption on what the heap holds: a call only adds
    objects (the estimator and the prediction), it never changes one that
    existed. *)
Lemma method_fit_heap h model X y :
  snd (method_fit model X y h) = h \/
  exists o, snd (method_fit model X y h) = <[model := o]> h.
Proof.
  unfold method_fit, bind, load_model, load_frame, load_series, lift, update.
  repeat case_match; simplify_eq; cbn; eauto.
Qed.

Lemma method_predict_heap h model X :
  h ⊆ snd (method_predict model X h).
Proof.
  unfold method_predict, bind, load_model, load_frame, lift, new.
  repeat case_match; simplify_eq; cbn; try reflexivity.
  apply insert_fresh_subseteq.
Qed.

Lemma call_mean_squared_error_heap h y_true y_pred :
  snd (call_mean_squared_error y_true y_pred h) = h.
Proof.
  unfold call_mean_squared_error, bind, load_series, load_array, lift.
  repeat case_match; simplify_eq; cbn; reflexivity.
Qed.

Lemma train_and_score_model_frame h l1 l2 l3 l4 n :
  h ⊆ snd (train_and_score_model l1 l2 l3 l4 n h).
Proof.
  unfold train_and_score_model, bind at 1, new.
  set (model := fresh (dom h)).
  set (h0 := <[model := OModel (RandomForestRegressor n 201)]> h).
  assert (Hsub1 : h ⊆ snd (method_fit model l1 l3 h0)).
  { destruct (method_fit_heap h0 model l1 l3) as [->|[o ->]].
    - apply insert_fresh_subseteq.
    - unfold h0. rewrite insert_insert_eq. apply insert_fresh_subseteq. }
  unfold bind at 1.
  destruct (method_fit model l1 l3 h0) as [[[]|e] h1]; [|exact Hsub1].
  cbn in Hsub1. unfold bind at 1.
  pose proof (method_predict_heap h1 model l2) as Hsub2.
  destruct (method_predict model l2 h1) as [[y_pred|e] h2];
    cbn in Hsub2; [|etrans; eassumption].
  unfold bind.
  pose proof (call_mean_squared_error_heap h2 l4 y_pred) as Heq.
  destruct (call_mean_squared_error l4 y_pred h2) as [[score|e] h3];
    cbn in Heq; subst h3; cbn; etrans; eassumption.
Qed.

Lemma comprehension_frame {A B} (f : A -> Py B) (js : list A) :
  (forall j h, h ⊆ snd (f j h)) ->
  forall h, h ⊆ snd (comprehension f js h).
Proof.
  intros Hf. induction js as [|j js IH]; intros h; [reflexivity|].
  cbn. unfold bind at 1. pose proof (Hf j h) as Hj.
  destruct (f j h) as [[r|e] h1]; cbn in Hj; [|exact Hj].
  unfold bind. pose proof (IH h1) as Hrest.
  destruct (comprehension f js h1) as [[rs|e] h2]; cbn in *; etrans; eassumption.
Qed.

Lemma holds_weaken h h' g d : holds h g d -> h ⊆ h' -> holds h' g d.
Proof.
  intros (H1 & H2 & H3 & H4) Hsub.
  repeat split; eapply lookup_weaken; eassumption.
Qed.

(** The comprehension of [run_sequential], job by job. *)
Lemma comprehension_run h g d (js : list Z) :
  holds h g d ->
  fst (comprehension
         (fun j => train_and_score_model (X_train g) (X_test g) (y_train g)
                     (y_test g) (8 + 4 * j)) js h)
  = sequence (executor d <$> (n_estimators_of <$> js)).
Proof.
  revert h. induction js as [|j js IH]; intros h Hh; [reflexivity|].
  cbn. unfold bind at 1.
  destruct Hh as (H1 & H2 & H3 & H4).
  destruct (train_and_score_model_run h _ _ _ _ d (8 + 4 * j) H1 H2 H3 H4)
    as (h1 & -> & Hsub).
  fold (n_estimators_of j).
  destruct (executor d (n_estimators_of j)) as [r|e]; [|reflexivity].
  unfold bind.
  assert (Hh1 : holds h1 g d).
  { eapply holds_weaken; [|exact Hsub]. repeat split; assumption. }
  specialize (IH h1 Hh1).
  destruct (comprehension _ js h1) as [[rs|e] h2]; cbn in IH; rewrite <- IH;
    reflexivity.
Qed.

Lemma run_sequential_expected h g d n :
  holds h g d -> fst (run_sequential g n h) = expected d n.
Proof. intros Hh. unfold run_sequential, expected, job_specs. apply comprehension_run, Hh. Qed.

Lemma run_sequential_frame h g n : h ⊆ snd (run_sequential g n h).
Proof.
  unfold run_sequential. apply comprehension_frame.
  intros j h'. apply train_and_score_model_frame.
Qed.

Lemma prepare_dataset_holds d h :
  holds (snd (prepare_dataset d h)) (fst (prepare_dataset d h)) d.
Proof.
  unfold prepare_dataset, holds. cbn.
  repeat split.
  - eapply lookup_weaken; [apply lookup_insert_eq|].
    etrans; [apply insert_fresh_subseteq|].
    etrans; [apply insert_fresh_subseteq|]. apply insert_fresh_subseteq.
  - eapply lookup_weaken; [apply lookup_insert_eq|].
    etrans; [apply insert_fresh_subseteq|]. apply insert_fresh_subseteq.
  - eapply lookup_weaken; [apply lookup_insert_eq|].
    apply insert_fresh_subseteq.
  - apply lookup_insert_eq.
Qed.

(** ** The parallel runner *)

Implicit Types (c : cluster) (objs : gmap ObjectRef pyobj) (rg : ray_globals) (t : task) (r : ObjectRef).

Lemma complete_objects c r : objects (complete c r) = objects c.
Proof. unfold complete. repeat case_match; reflexivity. Qed.

Lemma workers_objects (l : list ObjectRef) c : objects (workers l c) = objects c.
Proof.
  revert c. induction l as [|r l IH]; intros c; [reflexivity|].
  cbn. unfold workers in IH. rewrite IH. apply complete_objects.
Qed.

Lemma tick_objects c : objects (tick c) = objects c.
Proof.
  unfold tick. destruct (oracle c); [reflexivity|].
  rewrite workers_objects. reflexivity.
Qed.

Lemma run_task_not_pending objs t : run_task objs t <> Pending.
Proof. unfold run_task. repeat case_match; discriminate. Qed.

(** A worker step keeps what every handle stands for. *)
Lemma complete_submitted objs c r r' t :
  objects c = objs -> submitted objs c r t -> submitted objs (complete c r') r t.
Proof.
  intros <- (st & Hr & Hst). unfold complete.
  destruct (tasks c !! r') as [[t' [| |]]|] eqn:Hr'; try (exists st; auto; fail).
  destruct (decide (r' = r)) as [->|Hne].
  - rewrite Hr in Hr'. injection Hr' as <- ->.
    exists (run_task (objects c) t). cbn. rewrite lookup_insert_eq. auto.
  - exists st. cbn. rewrite lookup_insert_ne by done. auto.
Qed.

Lemma complete_completed objs c r r' t :
  completed objs c r t -> completed objs (complete c r') r t.
Proof.
  unfold completed, complete. intros Hr.
  destruct (tasks c !! r') as [[t' [| |]]|] eqn:Hr'; try assumption.
  cbn. rewrite lookup_insert_ne; [assumption|].
  intros ->. rewrite Hr in Hr'. injection Hr' as _ Hp.
  exact (run_task_not_pending _ _ Hp).
Qed.

Lemma complete_resolves objs c r t :
  objects c = objs -> submitted objs c r t -> completed objs (complete c r) r t.
Proof.
  intros <- (st & Hr & [->| ->]); unfold completed, complete.
  - rewrite Hr. cbn. apply lookup_insert_eq.
  - rewrite Hr. destruct (run_task (objects c) t) eqn:Hrt; try exact Hr.
    exfalso. exact (run_task_not_pending _ _ Hrt).
Qed.

Lemma workers_submitted objs (l : list ObjectRef) c r t :
  objects c = objs -> submitted objs c r t -> submitted objs (workers l c) r t.
Proof.
  revert c. induction l as [|r' l IH]; intros c Hobjs Hr; [exact Hr|].
  cbn. apply IH.
  - rewrite complete_objects. exact Hobjs.
  - apply complete_submitted; assumption.
Qed.

Lemma workers_completed objs (l : list ObjectRef) c r t :
  completed objs c r t -> completed objs (workers l c) r t.
Proof.
  revert c. induction l as [|r' l IH]; intros c Hr; [exact Hr|].
  cbn. apply IH, complete_completed, Hr.
Qed.

(** Waiting for the handles of [l] resolves each of them. *)
Lemma workers_resolves objs (l : list ObjectRef) c r t :
  objects c = objs -> submitted objs c r t -> r ∈ l ->
  completed objs (workers l c) r t.
Proof.
  revert c. induction l as [|r' l IH]; intros c Hobjs Hr Hin.
  - apply elem_of_nil in Hin. contradiction.
  - cbn. destruct (decide (r = r')) as [<-|Hne].
    + apply workers_completed, complete_resolves; assumption.
    + apply IH.
      * rewrite complete_objects. exact Hobjs.
      * apply complete_submitted; assumption.
      * apply elem_of_cons in Hin as [Heq|Hin]; [contradiction|exact Hin].
Qed.

Lemma tick_submitted objs c r t :
  objects c = objs -> submitted objs c r t -> submitted objs (tick c) r t.
Proof.
  intros Hobjs Hr. unfold tick. destruct (oracle c) as [|done rest]; [exact Hr|].
  apply workers_submitted; [exact Hobjs|exact Hr].
Qed.

Lemma remote_objects t c : objects (snd (remote t c)) = objects c.
Proof. unfold remote. cbn. rewrite tick_objects. reflexivity. Qed.

Lemma fresh_ref_tasks c r x : tasks c !! r = Some x -> fresh_ref c <> r.
Proof.
  intros Hr Heq. unfold fresh_ref in Heq.
  pose proof (is_fresh (dom (objects c) ∪ dom (tasks c))) as Hf.
  rewrite Heq in Hf. apply Hf, elem_of_union. right.
  apply elem_of_dom. eauto.
Qed.

Lemma fresh_ref_objects c r x : objects c !! r = Some x -> fresh_ref c <> r.
Proof.
  intros Hr Heq. unfold fresh_ref in Heq.
  pose proof (is_fresh (dom (objects c) ∪ dom (tasks c))) as Hf.
  rewrite Heq in Hf. apply Hf, elem_of_union. left.
  apply elem_of_dom. eauto.
Qed.

(** Submission gives a handle that stands for the submitted task ... *)
Lemma remote_submitted_new objs t c :
  objects c = objs -> submitted objs (snd (remote t c)) (fst (remote t c)) t.
Proof.
  intros Hobjs. unfold remote. cbn. apply tick_submitted; [exact Hobjs|].
  exists Pending. cbn. rewrite lookup_insert_eq. auto.
Qed.

(** ... and keeps the handles given before. *)
Lemma remote_submitted_old objs t c r t' :
  objects c = objs -> submitted objs c r t' -> submitted objs (snd (remote t c)) r t'.
Proof.
  intros Hobjs (st & Hr & Hst). unfold remote. cbn.
  apply tick_submitted; [exact Hobjs|].
  exists st. cbn. rewrite lookup_insert_ne by (eapply fresh_ref_tasks; eassumption).
  auto.
Qed.

Lemma ray_comprehension_cons {A B} (f : A -> cluster -> B * cluster) j js c :
  ray_comprehension f (j :: js) c =
    (fst (f j c) :: fst (ray_comprehension f js (snd (f j c))),
     snd (ray_comprehension f js (snd (f j c)))).
Proof.
  cbn. destruct (f j c) as [r c1]. cbn.
  destruct (ray_comprehension f js c1); reflexivity.
Qed.

Lemma ray_comprehension_submitted objs (f : Z -> task) (js : list Z) :
  forall c, objects c = objs ->
    objects (snd (ray_comprehension (fun j => remote (f j)) js c)) = objs /\
    Forall2 (fun r j =>
               submitted objs (snd (ray_comprehension (fun j => remote (f j)) js c))
                 r (f j))
      (fst (ray_comprehension (fun j => remote (f j)) js c)) js /\
    (forall r t, submitted objs c r t ->
       submitted objs (snd (ray_comprehension (fun j => remote (f j)) js c)) r t).
Proof.
  induction js as [|j js IH]; intros c Hobjs.
  - cbn. auto.
  - rewrite ray_comprehension_cons.
    pose proof (remote_objects (f j) c) as Ho.
    pose proof (remote_submitted_new objs (f j) c Hobjs) as Hnew.
    pose proof (fun r t => remote_submitted_old objs (f j) c r t Hobjs) as Hold.
    destruct (remote (f j) c) as [r c1]. cbn [fst snd] in *.
    destruct (IH c1) as (Ho2 & Hall & Hkeep); [congruence|].
    destruct (ray_comprehension _ js c1) as [rs c2]. cbn [fst snd] in *.
    split; [exact Ho2|]. split; [|auto].
    constructor; [auto|exact Hall].
Qed.

(** What a worker computes for a job of [run_parallel] is what the executor
    computes from the shared input. *)
Lemma run_task_executor c rg d j :
  shares c rg d ->
  run_task (objects c) (job rg j) =
    match executor d (8 + 4 * j) with
    | Return r => Resolved r
    | Raise e => Failed e
    end.
Proof.
  intros (H1 & H2 & H3 & H4). unfold run_task, job.
  cbn [train_set_ref test_set_ref train_labels_ref test_labels_ref n_estimators].
  rewrite H1, H2, H3, H4.
  destruct (train_and_score_model_run
              (worker_heap (ODataFrame (train_set d)) (ODataFrame (test_set d))
                 (OSeries (train_labels d)) (OSeries (test_labels d)))
              0%nat 1%nat 2%nat 3%nat d (8 + 4 * j))
    as (h' & Heq & _); try reflexivity.
  rewrite Heq. reflexivity.
Qed.

Lemma workers_resolves_all objs (l : list ObjectRef) c (f : Z -> task)
  (refs : list ObjectRef) (js : list Z) :
  objects c = objs ->
  (forall r, r ∈ refs -> r ∈ l) ->
  Forall2 (fun r j => submitted objs c r (f j)) refs js ->
  Forall2 (fun r j => completed objs (workers l c) r (f j)) refs js.
Proof.
  intros Hobjs Hsub Hall. induction Hall as [|r j refs js Hr Hall IH]; constructor.
  - apply workers_resolves; [exact Hobjs|exact Hr|]. apply Hsub, elem_of_cons. auto.
  - apply IH. intros r' Hr'. apply Hsub, elem_of_cons. auto.
Qed.

Lemma resolved_completed c c1 rg d r j :
  shares c rg d ->
  completed (objects c) c1 r (job rg j) ->
  resolved (tasks c1) r = Some (executor d (8 + 4 * j)).
Proof.
  intros Hsh Hr. unfold completed in Hr. unfold resolved. rewrite Hr.
  rewrite (run_task_executor c rg d j Hsh).
  destruct (executor d (8 + 4 * j)); reflexivity.
Qed.

(** Collection: the results of the handles in the order of the list, or
    the exception of the first failed one. *)
Lemma ray_get_run c rg d (refs : list ObjectRef) (js : list Z) :
  shares c rg d ->
  Forall2 (fun r j => submitted (objects c) c r (job rg j)) refs js ->
  fst (ray_get refs c) = Some (sequence (executor d <$> (n_estimators_of <$> js))).
Proof.
  intros Hsh Hall. unfold ray_get. cbn.
  assert (Hdone : Forall2 (fun r j => completed (objects c)
                             (workers refs (tick c)) r (job rg j)) refs js).
  { apply workers_resolves_all; [apply tick_objects|auto|].
    eapply Forall2_impl; [exact Hall|].
    intros r j Hr. apply tick_submitted; [reflexivity|exact Hr]. }
  rewrite (mapM_Some_2 _ refs (executor d <$> (n_estimators_of <$> js)));
    [reflexivity|].
  rewrite <- list_fmap_compose. apply Forall2_fmap_r.
  eapply Forall2_impl; [exact Hdone|].
  intros r j Hr. cbn. unfold n_estimators_of.
  eapply resolved_completed; eassumption.
Qed.

Lemma ray_get_objects (refs : list ObjectRef) c :
  objects (snd (ray_get refs c)) = objects c.
Proof. unfold ray_get. cbn. rewrite workers_objects. apply tick_objects. Qed.

Lemma run_parallel_expected c rg d n :
  shares c rg d -> fst (run_parallel rg n c) = Some (expected d n).
Proof.
  intros Hsh. unfold run_parallel, expected, job_specs.
  change (fun j : Z => remote _) with (fun j : Z => remote (job rg j)).
  destruct (ray_comprehension_submitted (objects c) (job rg) (range n) c eq_refl)
    as (Hobjs & Hall & _).
  destruct (ray_comprehension _ (range n) c) as [results_ref c1].
  cbn [fst snd] in *.
  apply (ray_get_run c1 rg d).
  - unfold shares in *. rewrite Hobjs. exact Hsh.
  - rewrite Hobjs. exact Hall.
Qed.

Lemma run_parallel_objects c rg n :
  objects (snd (run_parallel rg n c)) = objects c.
Proof.
  unfold run_parallel.
  change (fun j : Z => remote _) with (fun j : Z => remote (job rg j)).
  destruct (ray_comprehension_submitted (objects c) (job rg) (range n) c eq_refl)
    as (Hobjs & _ & _).
  destruct (ray_comprehension _ (range n) c) as [results_ref c1].
  cbn [fst snd] in *.
  rewrite ray_get_objects. exact Hobjs.
Qed.

Lemma ray_put_lookup o c :
  objects (snd (ray_put o c)) !! fst (ray_put o c) = Some o.
Proof. unfold ray_put. cbn. rewrite tick_objects. cbn. apply lookup_insert_eq. Qed.

Lemma ray_put_keeps o c r x :
  objects c !! r = Some x -> objects (snd (ray_put o c)) !! r = Some x.
Proof.
  intros Hr. unfold ray_put. cbn. rewrite tick_objects. cbn.
  rewrite lookup_insert_ne by (eapply fresh_ref_objects; eassumption). exact Hr.
Qed.

(** The four [ray.put] calls leave the store sharing the input the heap
    holds. *)
Lemma put_shared_shares h g d c :
  holds h g d ->
  exists rg c', put_shared g h c = Some (rg, c') /\ shares c' rg d.
Proof.
  intros (H1 & H2 & H3 & H4). unfold put_shared. rewrite H1, H2, H3, H4.
  cbn [mbind option_bind].
  pose proof (ray_put_lookup (ODataFrame (train_set d)) c) as L1.
  destruct (ray_put (ODataFrame (train_set d)) c) as [r1 c1]. cbn in L1.
  pose proof (ray_put_lookup (ODataFrame (test_set d)) c1) as L2.
  pose proof (ray_put_keeps (ODataFrame (test_set d)) c1 _ _ L1) as L1'.
  destruct (ray_put (ODataFrame (test_set d)) c1) as [r2 c2]. cbn in L2, L1'.
  pose proof (ray_put_lookup (OSeries (train_labels d)) c2) as L3.
  pose proof (ray_put_keeps (OSeries (train_labels d)) c2 _ _ L1') as L1''.
  pose proof (ray_put_keeps (OSeries (train_labels d)) c2 _ _ L2) as L2'.
  destruct (ray_put (OSeries (train_labels d)) c2) as [r3 c3]. cbn in L3, L1'', L2'.
  pose proof (ray_put_lookup (OSeries (test_labels d)) c3) as L4.
  pose proof (ray_put_keeps (OSeries (test_labels d)) c3 _ _ L1'') as M1.
  pose proof (ray_put_keeps (OSeries (test_labels d)) c3 _ _ L2') as M2.
  pose proof (ray_put_keeps (OSeries (test_labels d)) c3 _ _ L3) as M3.
  destruct (ray_put (OSeries (test_labels d)) c3) as [r4 c4]. cbn in *.
  eexists _, _. split; [reflexivity|].
  unfold shares. cbn. repeat split; assumption.
Qed.

(** The cells of the notebook in their order: the data set is prepared,
    the sequential run leaves it in place, and the four [ray.put] calls then
    share it with the workers. *)
Lemma notebook_shares d h0 (n : Z) (sched : list (list ObjectRef)) :
  let g := fst (prepare_dataset d h0) in
  let h := snd (prepare_dataset d h0) in
  let h' := snd (run_sequential g n h) in
  holds h g d /\ holds h' g d /\
  exists rg c, put_shared g h' (ray_init sched) = Some (rg, c) /\ shares c rg d.
Proof.
  intros g h h'.
  assert (Hh : holds h g d) by apply prepare_dataset_holds.
  assert (Hh' : holds h' g d).
  { eapply holds_weaken; [exact Hh|]. apply run_sequential_frame. }
  split; [exact Hh|]. split; [exact Hh'|].
  apply put_shared_shares, Hh'.
Qed.

End HarnessFacts.

(** ** Results in submission order *)

Lemma sequence_Return {A} (os : list (outcome A)) (rs : list A) :
  sequence os = Return rs <-> os = Return <$> rs.
Proof.
  revert rs. induction os as [|[a|e] os IH]; intros rs; cbn.
  - split; [intros [= <-]; reflexivity|].
    destruct rs; [reflexivity|discriminate].
  - destruct (sequence os) as [l|e].
    + split.
      * intros [= <-]. cbn. f_equal. apply IH. reflexivity.
      * destruct rs as [|r rs]; [discriminate|]. cbn. intros [= -> Hos].
        apply IH in Hos. injection Hos as ->. reflexivity.
    + split; [discriminate|].
      destruct rs as [|r rs]; [discriminate|]. cbn. intros [= -> Hos].
      apply IH in Hos. discriminate Hos.
  - split; [discriminate|]. destruct rs; discriminate.
Qed.

(** [sequence] raises exactly the first exception of the list. *)
Lemma sequence_Raise {A} (os : list (outcome A)) (e : exn) :
  sequence os = Raise e <->
  exists k : nat, os !! k = Some (Raise e) /\
    forall i : nat, (i < k)%nat -> exists a, os !! i = Some (Return a).
Proof.
  induction os as [|[a|e'] os IH]; cbn.
  - split; [discriminate|]. intros (k & Hk & _). discriminate Hk.
  - destruct (sequence os) as [l|e''].
    + split; [discriminate|]. intros (k & Hk & Hlt).
      destruct k as [|k]; [discriminate Hk|].
      assert (Return l = Raise e :> outcome (list A)); [|discriminate].
      apply IH. exists k. split; [exact Hk|].
      intros i Hi. apply (Hlt (S i)). lia.
    + split.
      * intros [= ->]. destruct (proj1 IH eq_refl) as (k & Hk & Hlt).
        exists (S k). split; [exact Hk|].
        intros [|i] Hi; [eauto|]. apply Hlt. lia.
      * intros (k & Hk & Hlt). destruct k as [|k]; [discriminate Hk|].
        apply IH. exists k. split; [exact Hk|].
        intros i Hi. apply (Hlt (S i)). lia.
  - split.
    + intros [= ->]. exists 0%nat. split; [reflexivity|]. intros i Hi. lia.
    + intros (k & Hk & Hlt). destruct k as [|k].
      * injection Hk as ->. reflexivity.
      * destruct (Hlt 0%nat) as (a & Ha); [lia|]. discriminate Ha.
Qed.

(** Among the outcomes up to a failing one there is a first failing one. *)
Lemma first_Raise {A} (os : list (outcome A)) (k : nat) (e : exn) :
  os !! k = Some (Raise e) ->
  exists (k' : nat) (e' : exn), (k' <= k)%nat /\ os !! k' = Some (Raise e') /\
    forall i : nat, (i < k')%nat -> exists a, os !! i = Some (Return a).
Proof.
  revert k. induction os as [|o os IH]; intros k Hk; [discriminate Hk|].
  destruct o as [a|e0].
  - destruct k as [|k]; [discriminate Hk|].
    destruct (IH k Hk) as (k' & e' & Hle & Hk' & Hlt).
    exists (S k'), e'. split; [lia|]. split; [exact Hk'|].
    intros [|i] Hi; [eauto|]. apply Hlt. lia.
  - exists 0%nat, e0. split; [lia|]. split; [reflexivity|]. intros i Hi. lia.
Qed.

Lemma length_job_specs (n : Z) : length (job_specs n) = Z.to_nat n.
Proof. unfold job_specs, range. rewrite length_fmap. apply length_seqZ. Qed.

Lemma lookup_job_specs (n : Z) (i : nat) :
  Z.of_nat i < n -> job_specs n !! i = Some (8 + 4 * Z.of_nat i).
Proof.
  intros Hi. unfold job_specs, range.
  rewrite list_lookup_fmap, lookup_seqZ_lt by exact Hi. reflexivity.
Qed.

Lemma lookup_job_specs_ge (n : Z) (i : nat) :
  n <= Z.of_nat i -> job_specs n !! i = None.
Proof.
  intros Hi. unfold job_specs, range.
  rewrite list_lookup_fmap, lookup_seqZ_ge by exact Hi. reflexivity.
Qed.

Section ResultFacts.
Context `{Sklearn}.
Implicit Types (h : gmap loc pyobj) (d : SharedInput) (g : globals).
Implicit Types (c : cluster) (rg : ray_globals).

(** The executor echoes the parameter it was given. *)
Lemma executor_echo d (n : Z) (r : JobResult) :
  executor d n = Return r -> fst r = n.
Proof.
  unfold executor. repeat case_match; try discriminate.
  intros [= <-]. reflexivity.
Qed.

Lemma lookup_expected d (n : Z) (i : nat) :
  Z.of_nat i < n ->
  (executor d <$> job_specs n) !! i = Some (executor d (8 + 4 * Z.of_nat i)).
Proof.
  intros Hi. rewrite list_lookup_fmap, lookup_job_specs by exact Hi. reflexivity.
Qed.

(** A returned ResultSet has one result per job, in submission order. *)
Lemma expected_Return d (n : Z) (rs : ResultSet) :
  expected d n = Return rs ->
  length rs = Z.to_nat n /\
  forall i : nat, (i < Z.to_nat n)%nat ->
    exists score : float,
      rs !! i = Some (8 + 4 * Z.of_nat i, score) /\
      executor d (8 + 4 * Z.of_nat i) = Return (8 + 4 * Z.of_nat i, score).
Proof.
  unfold expected. intros Hrs. apply sequence_Return in Hrs.
  assert (Hlen : length rs = Z.to_nat n).
  { rewrite <- (length_fmap Return rs), <- Hrs, length_fmap. apply length_job_specs. }
  split; [exact Hlen|].
  intros i Hi.
  assert (Hex : (executor d <$> job_specs n) !! i
                = Some (executor d (8 + 4 * Z.of_nat i))).
  { apply lookup_expected. lia. }
  rewrite Hrs in Hex.
  apply list_lookup_fmap_Some in Hex as ([ne score] & Hex & Hri).
  pose proof (executor_echo _ _ _ Hex) as Hecho. cbn in Hecho. subst ne.
  exists score. split; [exact Hri|exact Hex].
Qed.

(** If every job succeeds, there is a ResultSet. *)
Lemma expected_total d (n : Z) :
  (forall j, 0 <= j < n -> exists r, executor d (8 + 4 * j) = Return r) ->
  exists rs, expected d n = Return rs.
Proof.
  intros Hok. unfold expected.
  destruct (sequence (executor d <$> job_specs n)) as [rs|e] eqn:Hseq; [eauto|].
  apply sequence_Raise in Hseq as (k & Hk & _).
  assert (Hkn : Z.of_nat k < n).
  { destruct (Z_lt_le_dec (Z.of_nat k) n) as [Hlt|Hge]; [exact Hlt|].
    rewrite list_lookup_fmap, lookup_job_specs_ge in Hk by exact Hge.
    discriminate Hk. }
  rewrite lookup_expected in Hk by exact Hkn.
  destruct (Hok (Z.of_nat k)) as (r & Hr); [lia|]. congruence.
Qed.

(** If some job fails, the exception of the first failing job is raised. *)
Lemma expected_Raise d (n k : Z) (e : exn) :
  0 <= k < n -> executor d (8 + 4 * k) = Raise e ->
  exists (k' : Z) (e' : exn),
    0 <= k' <= k /\ executor d (8 + 4 * k') = Raise e' /\
    (forall j, 0 <= j < k' -> exists r, executor d (8 + 4 * j) = Return r) /\
    expected d n = Raise e'.
Proof.
  intros Hk He.
  assert (Hlk : (executor d <$> job_specs n) !! Z.to_nat k = Some (Raise e)).
  { rewrite lookup_expected by lia. rewrite Z2Nat.id by lia. rewrite He.
    reflexivity. }
  destruct (first_Raise _ _ _ Hlk) as (k' & e' & Hle & Hk' & Hlt).
  exists (Z.of_nat k'), e'.
  assert (Hk'n : Z.of_nat k' < n) by lia.
  split; [lia|]. split.
  { rewrite lookup_expected in Hk' by exact Hk'n. congruence. }
  split.
  { intros j Hj. destruct (Hlt (Z.to_nat j)) as (a & Ha); [lia|].
    rewrite lookup_expected in Ha by lia. rewrite Z2Nat.id in Ha by lia.
    exists a. congruence. }
  unfold expected. apply sequence_Raise. exists k'. split; assumption.
Qed.

Lemma returned_by_either h g d c rg (n : Z) (rs : ResultSet) :
  holds h g d -> shares c rg d ->
  fst (run_sequential g n h) = Return rs \/
  fst (run_parallel rg n c) = Some (Return rs) ->
  expected d n = Return rs.
Proof.
  intros Hh Hc [Hseq|Hpar].
  - rewrite <- (run_sequential_expected h g d n Hh). exact Hseq.
  - rewrite (run_parallel_expected c rg d n Hc) in Hpar. congruence.
Qed.

End ResultFacts.

(** * Main results *)

(** C4.  Selecting from an empty ResultSet fails: [min] raises (Python's
    [ValueError], the specification's EmptyResultSetError) and returns no
    JobResult. *)
Theorem best_empty_raises :
  best [] = Raise (ValueError "min() arg is an empty sequence") /\
  (forall r : JobResult, best [] <> Return r).
Proof. split; [reflexivity | intros r Hr; discriminate Hr]. Qed.

(** C1.  On every non-empty ResultSet [best] returns a JobResult [r] of the
    set such that no score of the set is below the score of [r] and no
    JobResult before [r] has the same score; when no score is NaN, the score
    of [r] is at most every score of the set and strictly below every
    earlier one.  On the notebook's example it returns [(24, 0.2694)]. *)
Theorem best_is_first_minimum :
  (forall mse_scores : ResultSet,
     mse_scores <> [] ->
     exists pre r post,
       mse_scores = pre ++ r :: post /\
       best mse_scores = Return r /\
       (forall r', r' ∈ mse_scores -> (snd r' <? snd r)%float = false) /\
       (forall r', r' ∈ pre -> (snd r' =? snd r)%float = false) /\
       ((forall r', r' ∈ mse_scores -> is_nan (snd r') = false) ->
        (forall r', r' ∈ mse_scores -> (snd r <=? snd r')%float = true) /\
        (forall r', r' ∈ pre -> (snd r <? snd r')%float = true))) /\
  best example_scores = Return (24, 0.2694%float).
Proof.
  split; [|reflexivity].
  intros mse_scores Hne.
  destruct (py_min_first_minimal PrimFloat.ltb PrimFloat.eqb itemgetter_1
              FloatOrder.ltb_irrefl FloatOrder.ltb_trans FloatOrder.eqb_ltb
              mse_scores Hne) as (pre & r & post & Heq & Hbest & Hmin & Hfirst).
  exists pre, r, post. unfold itemgetter_1 in *.
  split; [exact Heq|]. split; [exact Hbest|]. split; [exact Hmin|].
  split; [exact Hfirst|].
  intros Hnum.
  assert (Hr : r ∈ mse_scores).
  { rewrite Heq. apply elem_of_app. right. left. }
  assert (Hle : forall r', r' ∈ mse_scores -> (snd r <=? snd r')%float = true).
  { intros r' Hr'. apply FloatOrder.ltb_false_leb; auto. }
  split; [exact Hle|].
  intros r' Hr'. apply FloatOrder.leb_neq_ltb; [|auto].
  apply Hle. rewrite Heq. apply elem_of_app. left. exact Hr'.
Qed.

(** A NaN score in first place stays the running minimum, no comparison
    with NaN being true; elsewhere it is passed over. *)
Example best_with_nan :
  best [(8, nan); (12, 0.5%float)] = Return (8, nan) /\
  best [(12, 0.5%float); (8, nan)] = Return (12, 0.5%float).
Proof. split; reflexivity. Qed.

(** The theorem at the ResultSet [[(8, 0.5); (12, 0.25); (16, 0.25)]]. *)
Lemma best_is_first_minimum_witness :
  [(8, 0.5%float); (12, 0.25%float); (16, 0.25%float)] <> ([] : ResultSet) /\
  exists pre r post,
    [(8, 0.5%float); (12, 0.25%float); (16, 0.25%float)] = pre ++ r :: post /\
    best [(8, 0.5%float); (12, 0.25%float); (16, 0.25%float)] = Return r.
Proof.
  split; [discriminate|].
  destruct (proj1 best_is_first_minimum
              [(8, 0.5%float); (12, 0.25%float); (16, 0.25%float)])
    as (pre & r & post & Heq & Hbest & _); [discriminate|].
  exists pre, r, post. split; assumption.
Defined.

(** C2.  On the same shared input the two runners give the same outcome,
    for every count and whatever the completion order of the workers: the
    same ResultSet, element for element and in the same order, when the jobs
    succeed (and the same exception when one fails). *)
Theorem runners_agree `{Sklearn} (d : SharedInput) (g : globals)
  (h : gmap loc pyobj) (rg : ray_globals) (c : cluster) (n_models : Z) :
  holds h g d -> shares c rg d ->
  fst (run_parallel rg n_models c) = Some (fst (run_sequential g n_models h)) /\
  (forall rs_seq rs_par : ResultSet,
     fst (run_sequential g n_models h) = Return rs_seq ->
     fst (run_parallel rg n_models c) = Some (Return rs_par) ->
     length rs_seq = length rs_par /\
     forall i : nat, rs_seq !! i = rs_par !! i).
Proof.
  intros Hh Hc.
  rewrite (run_parallel_expected c rg d n_models Hc),
    (run_sequential_expected h g d n_models Hh).
  split; [reflexivity|].
  intros rs_seq rs_par -> [= ->]. auto.
Qed.

(** The theorem on the small data set, three jobs, the second finishing
    before the first. *)
Lemma runners_agree_witness :
  fst (run_parallel (Toy.the_refs Toy.small) 3
         (Toy.the_cluster Toy.small Toy.out_of_order))
  = Some (fst (run_sequential (Toy.the_globals Toy.small) 3
                 (Toy.the_heap Toy.small))).
Proof.
  apply (runners_agree Toy.small (Toy.the_globals Toy.small)
           (Toy.the_heap Toy.small) (Toy.the_refs Toy.small)
           (Toy.the_cluster Toy.small Toy.out_of_order) 3).
  - vm_compute. repeat split; reflexivity.
  - vm_compute. repeat split; reflexivity.
Defined.

Lemma comprehension_fmap `{Sklearn} {A B C} (k : A -> B) (f : B -> Py C)
  (js : list A) (h : gmap loc pyobj) :
  comprehension (fun j => f (k j)) js h = comprehension f (k <$> js) h.
Proof.
  revert h. induction js as [|j js IH]; intros h; [reflexivity|].
  cbn. unfold bind at 1 3. destruct (f (k j) h) as [[r|e] h1]; [|reflexivity].
  unfold bind. rewrite IH. reflexivity.
Qed.

Lemma ray_comprehension_fmap `{Sklearn} {A B C} (k : A -> B)
  (f : B -> cluster -> C * cluster) (js : list A) (c : cluster) :
  ray_comprehension (fun j => f (k j)) js c = ray_comprehension f (k <$> js) c.
Proof.
  revert c. induction js as [|j js IH]; intros c; [reflexivity|].
  cbn. destruct (f (k j) c) as [r c1]. rewrite IH. reflexivity.
Qed.

(** C3.  The parameters of the jobs are a function of the count alone:
    [job_specs n] has [n] entries, the [j]-th is [8 + 4 * j]; for 20 jobs
    they are 8, 12, ..., 84; and both runners go through exactly these
    parameters, in this order. *)
Theorem job_specs_generated `{Sklearn} :
  (forall n : Z, length (job_specs n) = Z.to_nat n) /\
  (forall n j : Z, 0 <= j < n -> job_specs n !! Z.to_nat j = Some (8 + 4 * j)) /\
  job_specs 20 = [8; 12; 16; 20; 24; 28; 32; 36; 40; 44;
                  48; 52; 56; 60; 64; 68; 72; 76; 80; 84] /\
  length (job_specs NUM_MODELS) = 20%nat /\
  (forall (g : globals) (n : Z) (h : gmap loc pyobj),
     run_sequential g n h =
     comprehension
       (train_and_score_model (X_train g) (X_test g) (y_train g) (y_test g))
       (job_specs n) h) /\
  (forall (rg : ray_globals) (n : Z) (c : cluster),
     run_parallel rg n c =
     let '(results_ref, c1) :=
       ray_comprehension
         (fun ne => remote {| train_set_ref := X_train_ref rg;
                              test_set_ref := X_test_ref rg;
                              train_labels_ref := y_train_ref rg;
                              test_labels_ref := y_test_ref rg;
                              n_estimators := ne |})
         (job_specs n) c in
     ray_get results_ref c1).
Proof.
  split; [exact length_job_specs|].
  split.
  { intros n j Hj. rewrite lookup_job_specs by lia.
    rewrite Z2Nat.id by lia. reflexivity. }
  split; [reflexivity|]. split; [reflexivity|]. split.
  - intros g n h. unfold run_sequential, job_specs.
    rewrite <- comprehension_fmap. reflexivity.
  - intros rg n c. unfold run_parallel, job_specs.
    rewrite <- ray_comprehension_fmap. reflexivity.
Qed.

(** The theorem at three jobs: the last parameter is 16. *)
Lemma job_specs_generated_witness :
  0 <= 2 < 3 /\ job_specs 3 !! Z.to_nat 2 = Some 16.
Proof.
  split; [lia|].
  apply (proj1 (proj2 (@job_specs_generated Toy.sklearn)) 3 2). lia.
Defined.

(** C5.  A ResultSet returned by either runner has one JobResult per
    submitted JobSpec, the [i]-th being the result of the [i]-th JobSpec;
    when every job succeeds both runners do return one; for no job both
    return the empty ResultSet. *)
Theorem result_set_in_submission_order `{Sklearn} (d : SharedInput)
  (g : globals) (h : gmap loc pyobj) (rg : ray_globals) (c : cluster) (n : Z) :
  holds h g d -> shares c rg d ->
  (forall rs : ResultSet,
     fst (run_sequential g n h) = Return rs \/
     fst (run_parallel rg n c) = Some (Return rs) ->
     length rs = Z.to_nat n /\
     forall i : nat, (i < Z.to_nat n)%nat ->
       exists score : float,
         rs !! i = Some (8 + 4 * Z.of_nat i, score) /\
         executor d (8 + 4 * Z.of_nat i) = Return (8 + 4 * Z.of_nat i, score)) /\
  ((forall j, 0 <= j < n -> exists r, executor d (8 + 4 * j) = Return r) ->
   exists rs : ResultSet,
     fst (run_sequential g n h) = Return rs /\
     fst (run_parallel rg n c) = Some (Return rs)) /\
  (n = 0 ->
   fst (run_sequential g n h) = Return [] /\
   fst (run_parallel rg n c) = Some (Return [])).
Proof.
  intros Hh Hc. split; [|split].
  - intros rs Hrs. apply expected_Return.
    eapply returned_by_either; eassumption.
  - intros Hok. destruct (expected_total d n Hok) as (rs & Hrs).
    exists rs. rewrite (run_sequential_expected h g d n Hh),
      (run_parallel_expected c rg d n Hc), Hrs. auto.
  - intros ->. rewrite (run_sequential_expected h g d 0 Hh),
      (run_parallel_expected c rg d 0 Hc). auto.
Qed.

(** The theorem on the small data set: two jobs, two results. *)
Lemma result_set_in_submission_order_witness :
  exists rs : ResultSet,
    fst (run_sequential (Toy.the_globals Toy.small) 2 (Toy.the_heap Toy.small))
      = Return rs /\
    fst (run_parallel (Toy.the_refs Toy.small) 2
           (Toy.the_cluster Toy.small Toy.out_of_order)) = Some (Return rs) /\
    length rs = 2%nat.
Proof.
  destruct (result_set_in_submission_order Toy.small
              (Toy.the_globals Toy.small) (Toy.the_heap Toy.small)
              (Toy.the_refs Toy.small)
              (Toy.the_cluster Toy.small Toy.out_of_order) 2)
    as (Hshape & Htotal & _).
  - vm_compute. repeat split; reflexivity.
  - vm_compute. repeat split; reflexivity.
  - destruct Htotal as (rs & Hseq & Hpar).
    + intros j Hj. assert (Hcases : j = 0 \/ j = 1) by lia.
      destruct Hcases as [-> | ->]; eexists; vm_compute; reflexivity.
    + exists rs. split; [exact Hseq|]. split; [exact Hpar|].
      apply (Hshape rs). left. exact Hseq.
Defined.

(** C6.  No call of [train_and_score_model], and so no run of either
    runner, changes an object that existed before it: the heap after a
    sequential run extends the heap before it, so the globals still hold
    the shared input; a parallel run leaves the objects of the store as
    they were. *)
Theorem shared_input_never_mutated `{Sklearn} :
  (forall (h : gmap loc pyobj) (l1 l2 l3 l4 : loc) (ne : Z),
     h ⊆ snd (train_and_score_model l1 l2 l3 l4 ne h)) /\
  (forall (g : globals) (n : Z) (h : gmap loc pyobj),
     h ⊆ snd (run_sequential g n h)) /\
  (forall (g : globals) (n : Z) (h : gmap loc pyobj) (d : SharedInput),
     holds h g d -> holds (snd (run_sequential g n h)) g d) /\
  (forall (rg : ray_globals) (n : Z) (c : cluster),
     objects (snd (run_parallel rg n c)) = objects c) /\
  (forall (rg : ray_globals) (n : Z) (c : cluster) (d : SharedInput),
     shares c rg d -> shares (snd (run_parallel rg n c)) rg d).
Proof.
  split; [intros; apply train_and_score_model_frame|].
  split; [intros; apply run_sequential_frame|].
  split.
  { intros g n h d Hh. eapply holds_weaken; [exact Hh|].
    apply run_sequential_frame. }
  split; [intros; apply run_parallel_objects|].
  intros rg n c d Hc. unfold shares. rewrite run_parallel_objects. exact Hc.
Qed.

(** The theorem on the small data set: after three sequential jobs the
    globals hold the same shared input. *)
Lemma shared_input_never_mutated_witness :
  holds (snd (run_sequential (Toy.the_globals Toy.small) 3
                (Toy.the_heap Toy.small)))
    (Toy.the_globals Toy.small) Toy.small.
Proof.
  apply (proj1 (proj2 (proj2 (@shared_input_never_mutated Toy.sklearn)))).
  vm_compute. repeat split; reflexivity.
Defined.




(** C9.  When every job succeeds both runners return a ResultSet, the
    same one; and in a ResultSet returned by either runner the [j]-th
    JobResult echoes the [j]-th parameter [8 + 4 * j]; the echoed parameters
    are strictly increasing and pairwise distinct; and the parameter echoed
    by the best result belongs to one job only. *)
Theorem results_echo_parameters `{Sklearn} (d : SharedInput) (g : globals)
  (h : gmap loc pyobj) (rg : ray_globals) (c : cluster) (n : Z) :
  holds h g d -> shares c rg d ->
  ((forall j, 0 <= j < n -> exists r, executor d (8 + 4 * j) = Return r) ->
   exists rs : ResultSet,
     fst (run_sequential g n h) = Return rs /\
     fst (run_parallel rg n c) = Some (Return rs)) /\
  (forall rs : ResultSet,
     fst (run_sequential g n h) = Return rs \/
     fst (run_parallel rg n c) = Some (Return rs) ->
     fst <$> rs = job_specs n /\
     (forall (j : nat) (r : JobResult),
        rs !! j = Some r -> Z.of_nat j < n /\ fst r = 8 + 4 * Z.of_nat j) /\
     (forall (i j : nat) (ri rj : JobResult),
        rs !! i = Some ri -> rs !! j = Some rj -> (i < j)%nat ->
        fst ri < fst rj) /\
     NoDup (fst <$> rs) /\
     (forall b : JobResult,
        best rs = Return b ->
        exists j : nat,
          rs !! j = Some b /\ fst b = 8 + 4 * Z.of_nat j /\
          forall (j' : nat) (r' : JobResult),
            rs !! j' = Some r' -> fst r' = fst b -> j' = j /\ r' = b)).
Proof.
  intros Hh Hc. split.
  { intros Hok. destruct (expected_total d n Hok) as (rs & Hrs).
    exists rs. rewrite (run_sequential_expected h g d n Hh),
      (run_parallel_expected c rg d n Hc), Hrs. auto. }
  intros rs Hrs.
  pose proof (returned_by_either h g d c rg n rs Hh Hc Hrs) as Hexp.
  destruct (expected_Return d n rs Hexp) as (Hlen & Hlook).
  assert (Hecho : forall (j : nat) (r : JobResult),
            rs !! j = Some r -> Z.of_nat j < n /\ fst r = 8 + 4 * Z.of_nat j).
  { intros j r Hj. pose proof (lookup_lt_Some _ _ _ Hj) as Hlt.
    assert (Hlt' : (j < Z.to_nat n)%nat) by (rewrite <- Hlen; exact Hlt).
    destruct (Hlook j Hlt') as (score & Hs & _).
    pose proof (eq_trans (eq_sym Hj) Hs) as [= ->]. split; [lia|reflexivity]. }
  assert (Hinc : forall (i j : nat) (ri rj : JobResult),
            rs !! i = Some ri -> rs !! j = Some rj -> (i < j)%nat ->
            fst ri < fst rj).
  { intros i j ri rj Hi Hj Hij.
    destruct (Hecho i ri Hi) as (_ & ->). destruct (Hecho j rj Hj) as (_ & ->).
    lia. }
  split.
  { apply list_eq. intros i.
    destruct (Nat.lt_ge_cases i (Z.to_nat n)) as [Hi|Hi].
    - destruct (Hlook i Hi) as (score & Hs & _).
      rewrite (list_lookup_fmap_Some_2 fst _ _ _ Hs).
      rewrite lookup_job_specs by lia. reflexivity.
    - rewrite lookup_job_specs_ge by lia.
      apply lookup_ge_None_2. rewrite length_fmap.
      rewrite <- Hlen in Hi. exact Hi. }
  split; [exact Hecho|]. split; [exact Hinc|]. split.
  { apply NoDup_alt. intros i j x Hi Hj.
    apply list_lookup_fmap_Some in Hi as (ri & Hxi & Hi).
    apply list_lookup_fmap_Some in Hj as (rj & Hxj & Hj).
    destruct (Hecho i ri Hi) as (_ & Hei). destruct (Hecho j rj Hj) as (_ & Hej).
    lia. }
  intros b Hb.
  assert (Hne : rs <> []).
  { intros ->. discriminate Hb. }
  destruct (py_min_first_minimal PrimFloat.ltb PrimFloat.eqb itemgetter_1
              FloatOrder.ltb_irrefl FloatOrder.ltb_trans FloatOrder.eqb_ltb
              rs Hne) as (pre & b' & post & Heq & Hbest & _).
  unfold best in Hb. rewrite Hbest in Hb. injection Hb as ->.
  assert (Hj : rs !! length pre = Some b).
  { rewrite Heq. apply list_lookup_middle. reflexivity. }
  exists (length pre). split; [exact Hj|].
  destruct (Hecho _ _ Hj) as (_ & Hb). split; [exact Hb|].
  intros j' r' Hj' Hsame.
  destruct (Hecho _ _ Hj') as (_ & Hr').
  assert (j' = length pre) as -> by lia.
  split; [reflexivity|]. congruence.
Qed.

(** The theorem on the small data set: three jobs all succeed, the parallel
    runner returns with the workers out of order, and its results echo 8,
    12 and 16. *)
Lemma results_echo_parameters_witness :
  exists rs : ResultSet,
    fst (run_sequential (Toy.the_globals Toy.small) 3 (Toy.the_heap Toy.small))
      = Return rs /\
    fst (run_parallel (Toy.the_refs Toy.small) 3
           (Toy.the_cluster Toy.small Toy.out_of_order)) = Some (Return rs) /\
    fst <$> rs = [8; 12; 16].
Proof.
  destruct (results_echo_parameters Toy.small (Toy.the_globals Toy.small)
              (Toy.the_heap Toy.small) (Toy.the_refs Toy.small)
              (Toy.the_cluster Toy.small Toy.out_of_order) 3)
    as (Htotal & Hecho).
  - vm_compute. repeat split; reflexivity.
  - vm_compute. repeat split; reflexivity.
  - destruct Htotal as (rs & Hseq & Hpar).
    + intros j Hj. assert (Hcases : j = 0 \/ j = 1 \/ j = 2) by lia.
      destruct Hcases as [-> | [-> | ->]]; eexists; vm_compute; reflexivity.
    + exists rs. split; [exact Hseq|]. split; [exact Hpar|].
      apply (Hecho rs). right. exact Hpar.
Defined.

(** C10.  For a negative count both runners return the empty ResultSet and
    raise nothing, as they do for zero. *)
Theorem negative_count_gives_empty `{Sklearn} (g : globals)
  (h : gmap loc pyobj) (rg : ray_globals) (c : cluster) (n_models : Z) :
  n_models < 0 ->
  run_sequential g n_models h = (Return [], h) /\
  fst (run_parallel rg n_models c) = Some (Return []) /\
  run_sequential g n_models h = run_sequential g 0 h /\
  run_parallel rg n_models c = run_parallel rg 0 c.
Proof.
  intros Hn. unfold run_sequential, run_parallel, range.
  rewrite (seqZ_nil 0 n_models) by lia. rewrite (seqZ_nil 0 0) by lia.
  cbn. auto.
Qed.

(** The theorem at [n_models = -3]. *)
Lemma negative_count_gives_empty_witness :
  fst (run_sequential (Toy.the_globals Toy.small) (-3) (Toy.the_heap Toy.small))
    = Return [] /\
  fst (run_parallel (Toy.the_refs Toy.small) (-3)
         (Toy.the_cluster Toy.small Toy.out_of_order)) = Some (Return []).
Proof.
  destruct (negative_count_gives_empty (Toy.the_globals Toy.small)
              (Toy.the_heap Toy.small) (Toy.the_refs Toy.small)
              (Toy.the_cluster Toy.small Toy.out_of_order) (-3))
    as (Hseq & Hpar & _); [lia|].
  split; [rewrite Hseq; reflexivity|exact Hpar].
Defined.

(** * Further properties of the notebook's code *)

(** ** NaN scores and [min] *)

Module FloatNaN.

Lemma SFeqb_refl (x : spec_float) : x <> S754_nan -> SFeqb x x = true.
Proof.
  unfold SFeqb. destruct x as [s|s| |s m e]; intros Hx; try congruence; simpl.
  - reflexivity.
  - destruct s; reflexivity.
  - destruct s; rewrite Z.compare_refl, Pos.compare_cont_refl; reflexivity.
Qed.

Lemma is_nan_true (x : float) : is_nan x = true -> Prim2SF x = S754_nan.
Proof.
  unfold is_nan. rewrite FloatAxioms.eqb_spec. intros Hx.
  destruct (Prim2SF x) as [s|s| |s m e] eqn:Hsf; [| |reflexivity|];
    rewrite SFeqb_refl in Hx by discriminate; discriminate Hx.
Qed.

(** Nothing is below NaN. *)
Lemma ltb_nan_r (x y : float) : is_nan y = true -> (x <? y)%float = false.
Proof.
  intros Hy. rewrite FloatAxioms.ltb_spec, (is_nan_true y Hy).
  unfold SFltb. destruct (Prim2SF x); reflexivity.
Qed.

(** What is below something is not NaN. *)
Lemma ltb_not_nan (x y : float) : (x <? y)%float = true -> is_nan x = false.
Proof.
  intros Hlt. destruct (is_nan x) eqn:Hx; [|reflexivity].
  rewrite FloatAxioms.ltb_spec, (is_nan_true x Hx) in Hlt. discriminate Hlt.
Qed.

End FloatNaN.

Lemma min_loop_cons (x r : JobResult) (rest : ResultSet) :
  fold_left (min_step PrimFloat.ltb itemgetter_1) (x :: rest) (Some (r, snd r))
  = fold_left (min_step PrimFloat.ltb itemgetter_1) rest
      (if (snd x <? snd r)%float then Some (x, snd x) else Some (r, snd r)).
Proof. reflexivity. Qed.

Lemma min_loop_nan (rest : ResultSet) (r : JobResult) :
  is_nan (snd r) = true ->
  fold_left (min_step PrimFloat.ltb itemgetter_1) rest (Some (r, snd r))
  = Some (r, snd r).
Proof.
  intros Hr. induction rest as [|x rest IH]; [reflexivity|].
  rewrite min_loop_cons, (FloatNaN.ltb_nan_r _ _ Hr). exact IH.
Qed.

Lemma min_loop_not_nan (rest : ResultSet) : forall r : JobResult,
  is_nan (snd r) = false ->
  exists b : JobResult,
    fold_left (min_step PrimFloat.ltb itemgetter_1) rest (Some (r, snd r))
    = Some (b, snd b) /\ is_nan (snd b) = false.
Proof.
  induction rest as [|x rest IH]; intros r Hr; [eauto|].
  rewrite min_loop_cons.
  destruct (snd x <? snd r)%float eqn:Hlt.
  - apply IH. eapply FloatNaN.ltb_not_nan. exact Hlt.
  - apply IH, Hr.
Qed.

(** X9.  A NaN score is selected exactly when it comes first: if the first
    JobResult has a NaN score, [best] returns it whatever follows; if the
    first score is a number, the score [best] returns is a number, NaN
    scores further on being passed over. *)
Theorem best_nan_only_first (r : JobResult) (rest : ResultSet) :
  (is_nan (snd r) = true -> best (r :: rest) = Return r) /\
  (is_nan (snd r) = false ->
   exists b : JobResult, best (r :: rest) = Return b /\ is_nan (snd b) = false).
Proof.
  unfold best, py_min.
  change (fold_left (min_step PrimFloat.ltb itemgetter_1) (r :: rest) None)
    with (fold_left (min_step PrimFloat.ltb itemgetter_1) rest (Some (r, snd r))).
  split; intros Hr.
  - rewrite (min_loop_nan rest r Hr). reflexivity.
  - destruct (min_loop_not_nan rest r Hr) as (b & -> & Hb). eauto.
Qed.

(** The theorem at a NaN in first place and at a NaN in second place. *)
Lemma best_nan_only_first_witness :
  best [(8, nan); (12, 0.5%float)] = Return (8, nan) /\
  exists b : JobResult,
    best [(8, 0.5%float); (12, nan); (16, 0.25%float)] = Return b /\
    is_nan (snd b) = false.
Proof.
  split.
  - apply (proj1 (best_nan_only_first (8, nan) [(12, 0.5%float)])). reflexivity.
  - apply (proj2 (best_nan_only_first (8, 0.5%float)
                    [(12, nan); (16, 0.25%float)])). reflexivity.
Defined.

(** ** One call of [train_and_score_model] *)

Section CallFacts.
Context `{Sklearn}.
Implicit Types (h : gmap loc pyobj) (d : SharedInput) (g : globals).

(** Whatever the heap holds, a result that is returned echoes the
    [n_estimators] the call was given. *)
Lemma train_and_score_model_echo h (l1 l2 l3 l4 : loc) (n : Z) (r : JobResult) :
  fst (train_and_score_model l1 l2 l3 l4 n h) = Return r -> fst r = n.
Proof.
  unfold train_and_score_model, bind at 1, new.
  set (model := fresh (dom h)).
  set (h0 := <[model := OModel (RandomForestRegressor n 201)]> h).
  unfold bind at 1. destruct (method_fit model l1 l3 h0) as [[[]|e] h1];
    [|discriminate].
  unfold bind at 1. destruct (method_predict model l2 h1) as [[y_pred|e] h2];
    [|discriminate].
  unfold bind. destruct (call_mean_squared_error l4 y_pred h2) as [[score|e] h3];
    [|discriminate].
  unfold ret. cbn. intros [= <-]. reflexivity.
Qed.

(** X1.  [train_and_score_model] on globals that hold the shared input:
    the estimator is made with [n_estimators] trees and [random_state=201];
    an exception of [fit] is raised as it is and nothing is predicted; else
    an exception of [predict] is raised; else an exception of
    [mean_squared_error] is raised; else the pair of [n_estimators] and the
    score of the prediction against the test labels is returned. *)
Theorem train_and_score_model_outcome h g d (n : Z) :
  holds h g d ->
  let call := fst (train_and_score_model (X_train g) (X_test g) (y_train g)
                     (y_test g) n h) in
  let fitted := fit (RandomForestRegressor n 201) (train_set d) (train_labels d) in
  (forall e, fitted = Raise e -> call = Raise e) /\
  (forall m e, fitted = Return m -> predict m (test_set d) = Raise e ->
     call = Raise e) /\
  (forall m a e, fitted = Return m -> predict m (test_set d) = Return a ->
     mean_squared_error (test_labels d) a = Raise e -> call = Raise e) /\
  (forall m a score, fitted = Return m -> predict m (test_set d) = Return a ->
     mean_squared_error (test_labels d) a = Return score ->
     call = Return (n, score)).
Proof.
  intros (H1 & H2 & H3 & H4) call fitted. subst call fitted.
  destruct (train_and_score_model_run h _ _ _ _ d n H1 H2 H3 H4)
    as (h' & -> & _).
  unfold executor. cbn [fst].
  split; [intros e ->; reflexivity|].
  split; [intros m e -> ->; reflexivity|].
  split; [intros m a e -> -> ->; reflexivity|].
  intros m a score -> -> ->. reflexivity.
Qed.

End CallFacts.

(** The theorem on the large data set with 12 trees: [fit] runs out of its
    budget and the call raises that exception. *)
Lemma train_and_score_model_outcome_witness :
  fst (train_and_score_model (X_train (Toy.the_globals Toy.large))
         (X_test (Toy.the_globals Toy.large))
         (y_train (Toy.the_globals Toy.large))
         (y_test (Toy.the_globals Toy.large)) 12 (Toy.the_heap Toy.large))
  = Raise (PyErr "MemoryError" "out of budget").
Proof.
  apply (proj1 (train_and_score_model_outcome (Toy.the_heap Toy.large)
                  (Toy.the_globals Toy.large) Toy.large 12
                  ltac:(vm_compute; repeat split; reflexivity))).
  reflexivity.
Defined.

(** ** Runs of different lengths, and runs after runs *)

Lemma range_app (n k : Z) :
  0 <= k <= n -> range n = range k ++ seqZ k (n - k).
Proof.
  intros Hk. unfold range.
  replace n with (k + (n - k)) at 1 by lia.
  rewrite seqZ_app by lia. reflexivity.
Qed.

Lemma job_specs_take (n n' : Z) :
  n <= n' -> job_specs n = take (Z.to_nat n) (job_specs n').
Proof.
  intros Hn. destruct (Z_lt_le_dec n 0) as [Hneg|Hpos].
  - unfold job_specs, range. rewrite (seqZ_nil 0 n) by lia.
    replace (Z.to_nat n) with 0%nat by lia. reflexivity.
  - unfold job_specs. rewrite (range_app n' n) by lia.
    rewrite fmap_app, take_app_length'; [reflexivity|].
    rewrite length_fmap. unfold range. symmetry. apply length_seqZ.
Qed.

Section RunFacts.
Context `{Sklearn}.
Implicit Types (h : gmap loc pyobj) (d : SharedInput) (g : globals).
Implicit Types (c : cluster) (rg : ray_globals).

Lemma comprehension_cons {A B} (f : A -> Py B) (j : A) (js : list A) h :
  comprehension f (j :: js) h =
    match f j h with
    | (Return r, h1) =>
      match comprehension f js h1 with
      | (Return rs, h2) => (Return (r :: rs), h2)
      | (Raise e, h2) => (Raise e, h2)
      end
    | (Raise e, h1) => (Raise e, h1)
    end.
Proof.
  cbn. unfold bind at 1. destruct (f j h) as [[r|e] h1]; [|reflexivity].
  unfold bind, ret. destruct (comprehension f js h1) as [[rs|e] h2]; reflexivity.
Qed.

Lemma comprehension_app {A B} (f : A -> Py B) (l1 l2 : list A) h :
  comprehension f (l1 ++ l2) h =
    match comprehension f l1 h with
    | (Return rs1, h1) =>
      match comprehension f l2 h1 with
      | (Return rs2, h2) => (Return (rs1 ++ rs2), h2)
      | (Raise e, h2) => (Raise e, h2)
      end
    | (Raise e, h1) => (Raise e, h1)
    end.
Proof.
  revert h. induction l1 as [|j l1 IH]; intros h.
  - cbn. unfold ret. destruct (comprehension f l2 h) as [[rs2|e] h2]; reflexivity.
  - rewrite <- app_comm_cons, !comprehension_cons.
    destruct (f j h) as [[r|e] h1]; [|reflexivity].
    rewrite IH.
    destruct (comprehension f l1 h1) as [[rs1|e] h2]; [|reflexivity].
    destruct (comprehension f l2 h2) as [[rs2|e] h3]; reflexivity.
Qed.

(** X2.  The sequential runner stops at the first failure: if the executor
    fails for job [k], the run of [n_models] jobs is the run of the first
    [k + 1] jobs, in what it raises and in the heap it leaves; no job after
    [k] is started. *)
Theorem run_sequential_stops_at_failure h g d (n_models k : Z) (e : exn) :
  holds h g d ->
  0 <= k < n_models -> executor d (8 + 4 * k) = Raise e ->
  run_sequential g n_models h = run_sequential g (k + 1) h.
Proof.
  intros Hh Hk He.
  destruct (expected_Raise d (k + 1) k e ltac:(lia) He)
    as (k' & e' & _ & _ & _ & Hexp).
  pose proof (run_sequential_expected h g d (k + 1) Hh) as Hrun.
  rewrite Hexp in Hrun.
  unfold run_sequential in *. rewrite (range_app n_models (k + 1)) by lia.
  rewrite comprehension_app.
  destruct (comprehension _ (range (k + 1)) h) as [[rs|e''] h1]; [|reflexivity].
  discriminate Hrun.
Qed.

(** X4.  The results of the first jobs do not depend on how many jobs
    follow: if a run of [n'] jobs returns a ResultSet, the run of [n <= n']
    jobs returns its first [n] entries, for either runner. *)
Theorem shorter_run_is_prefix h g d c rg (n n' : Z) (rs' : ResultSet) :
  holds h g d -> shares c rg d -> n <= n' ->
  (fst (run_sequential g n' h) = Return rs' ->
   fst (run_sequential g n h) = Return (take (Z.to_nat n) rs')) /\
  (fst (run_parallel rg n' c) = Some (Return rs') ->
   fst (run_parallel rg n c) = Some (Return (take (Z.to_nat n) rs'))).
Proof.
  intros Hh Hc Hn.
  rewrite !(run_sequential_expected h g d _ Hh),
    !(run_parallel_expected c rg d _ Hc).
  assert (Hprefix : expected d n' = Return rs' ->
                    expected d n = Return (take (Z.to_nat n) rs')).
  { unfold expected. intros Hrs. apply sequence_Return in Hrs.
    apply sequence_Return.
    rewrite (job_specs_take n n' Hn), !fmap_take, Hrs. reflexivity. }
  split; [exact Hprefix|]. intros [= Hrs]. f_equal. apply Hprefix, Hrs.
Qed.

(** X5.  A run leaves nothing behind that a later run would see: after a
    sequential run of [m] jobs, a sequential run of [n] jobs has the outcome
    it would have had without it; after a parallel run of [m] jobs, a
    parallel run of [n] jobs returns a ResultSet exactly when it would have
    returned it without the earlier run, and exactly when the repeated
    sequential run returns it. *)
Theorem runs_are_repeatable h g d c rg (m n : Z) :
  holds h g d -> shares c rg d ->
  fst (run_sequential g n (snd (run_sequential g m h)))
    = fst (run_sequential g n h) /\
  (forall rs : ResultSet,
     fst (run_parallel rg n (snd (run_parallel rg m c))) = Some (Return rs) <->
     fst (run_parallel rg n c) = Some (Return rs)) /\
  (forall rs : ResultSet,
     fst (run_parallel rg n (snd (run_parallel rg m c))) = Some (Return rs) <->
     fst (run_sequential g n (snd (run_sequential g m h))) = Return rs).
Proof.
  intros Hh Hc.
  assert (Hh' : holds (snd (run_sequential g m h)) g d).
  { eapply holds_weaken; [exact Hh|]. apply run_sequential_frame. }
  assert (Hc' : shares (snd (run_parallel rg m c)) rg d).
  { unfold shares. rewrite run_parallel_objects. exact Hc. }
  rewrite (run_sequential_expected _ g d n Hh'),
    (run_sequential_expected h g d n Hh),
    (run_parallel_expected _ rg d n Hc'), (run_parallel_expected c rg d n Hc).
  split; [reflexivity|]. split; [reflexivity|].
  intros rs. split; [intros [= ->]; reflexivity|intros ->; reflexivity].
Qed.

(** X6.  The cells of the notebook in their order, from any heap and for
    any completion order of the workers: after the data set is prepared and
    the sequential run is done, the four [ray.put] calls succeed, and the
    parallel run then returns a ResultSet exactly when the sequential run
    returned it, so that both analysis cells select the same best result. *)
Theorem notebook_sections_agree d h0 (n_models : Z)
  (sched : list (list ObjectRef)) :
  let g := fst (prepare_dataset d h0) in
  let h := snd (prepare_dataset d h0) in
  let mse_scores := fst (run_sequential g n_models h) in
  let h' := snd (run_sequential g n_models h) in
  exists rg c,
    put_shared g h' (ray_init sched) = Some (rg, c) /\
    (forall rs : ResultSet,
       mse_scores = Return rs <->
       fst (run_parallel rg n_models c) = Some (Return rs)) /\
    forall rs_seq rs_par : ResultSet,
      mse_scores = Return rs_seq ->
      fst (run_parallel rg n_models c) = Some (Return rs_par) ->
      rs_par = rs_seq /\ best rs_par = best rs_seq.
Proof.
  intros g h mse_scores h'.
  destruct (notebook_shares d h0 n_models sched) as (Hh0 & _ & rg & c & Hput & Hc).
  assert (Hh : holds h g d) by exact Hh0.
  exists rg, c. split; [exact Hput|].
  assert (Hagree : fst (run_parallel rg n_models c) = Some mse_scores).
  { subst mse_scores. rewrite (run_parallel_expected c rg d n_models Hc).
    rewrite (run_sequential_expected h g d n_models Hh). reflexivity. }
  split.
  { intros rs. rewrite Hagree.
    split; [intros ->; reflexivity|intros [= ->]; reflexivity]. }
  intros rs_seq rs_par Hseq Hpar. rewrite Hagree, Hseq in Hpar.
  injection Hpar as ->. split; reflexivity.
Qed.

(** X10.  The sequential runner raises nothing of its own: an exception it
    raises is the exception the executor raises for some job
    [k < n_models] whose earlier jobs all succeed. *)
Theorem raised_by_some_job h g d (n_models : Z) (e : exn) :
  holds h g d ->
  fst (run_sequential g n_models h) = Raise e ->
  exists k : Z,
    0 <= k < n_models /\ executor d (8 + 4 * k) = Raise e /\
    forall j, 0 <= j < k -> exists r, executor d (8 + 4 * j) = Return r.
Proof.
  intros Hh Hraise.
  assert (Hexp : expected d n_models = Raise e).
  { rewrite <- (run_sequential_expected h g d n_models Hh). exact Hraise. }
  unfold expected in Hexp. apply sequence_Raise in Hexp as (k & Hk & Hbefore).
  assert (Hkn : Z.of_nat k < n_models).
  { destruct (Z_lt_le_dec (Z.of_nat k) n_models) as [Hlt|Hge]; [exact Hlt|].
    rewrite list_lookup_fmap, lookup_job_specs_ge in Hk by exact Hge.
    discriminate Hk. }
  exists (Z.of_nat k). split; [lia|]. split.
  - rewrite lookup_expected in Hk by exact Hkn. congruence.
  - intros j Hj. destruct (Hbefore (Z.to_nat j)) as (r & Hr); [lia|].
    rewrite lookup_expected in Hr by lia. rewrite Z2Nat.id in Hr by lia.
    exists r. congruence.
Qed.

End RunFacts.

(** ** The analysis cell after a run *)

(** X7.  [best = min(mse_scores, key=itemgetter(1))] on the ResultSet a
    runner returned: for a count of zero or less the ResultSet is empty and
    the cell raises [ValueError]; for a positive count it returns the result
    [(8 + 4 * j, score)] of one of the jobs, and no job has a score below
    it. *)
Theorem best_of_a_run `{Sklearn} (d : SharedInput) (g : globals)
  (h : gmap loc pyobj) (rg : ray_globals) (c : cluster) (n_models : Z)
  (mse_scores : ResultSet) :
  holds h g d -> shares c rg d ->
  fst (run_sequential g n_models h) = Return mse_scores \/
  fst (run_parallel rg n_models c) = Some (Return mse_scores) ->
  (n_models <= 0 ->
   mse_scores = [] /\
   best mse_scores = Raise (ValueError "min() arg is an empty sequence")) /\
  (0 < n_models ->
   exists (j : Z) (score : float),
     0 <= j < n_models /\
     best mse_scores = Return (8 + 4 * j, score) /\
     executor d (8 + 4 * j) = Return (8 + 4 * j, score) /\
     forall (j' : Z) (r' : JobResult),
       0 <= j' < n_models -> executor d (8 + 4 * j') = Return r' ->
       (snd r' <? score)%float = false).
Proof.
  intros Hh Hc Hrs.
  pose proof (returned_by_either h g d c rg n_models mse_scores Hh Hc Hrs) as Hexp.
  destruct (expected_Return d n_models mse_scores Hexp) as (Hlen & Hlook).
  split.
  - intros Hn. assert (Hnil : mse_scores = []).
    { apply length_zero_iff_nil. rewrite Hlen. lia. }
    rewrite Hnil. split; reflexivity.
  - intros Hn.
    assert (Hne : mse_scores <> []).
    { intros ->. cbn in Hlen. lia. }
    destruct (py_min_first_minimal PrimFloat.ltb PrimFloat.eqb itemgetter_1
                FloatOrder.ltb_irrefl FloatOrder.ltb_trans FloatOrder.eqb_ltb
                mse_scores Hne) as (pre & b & post & Heq & Hbest & Hmin & _).
    assert (Hb : mse_scores !! length pre = Some b).
    { rewrite Heq. apply list_lookup_middle. reflexivity. }
    assert (Hlt : (length pre < Z.to_nat n_models)%nat).
    { rewrite <- Hlen. eapply lookup_lt_Some. exact Hb. }
    destruct (Hlook _ Hlt) as (score & Hs & Hex).
    pose proof (eq_trans (eq_sym Hb) Hs) as [= ->].
    exists (Z.of_nat (length pre)), score.
    split; [lia|]. split; [exact Hbest|]. split; [exact Hex|].
    intros j' r' Hj' Hr'.
    destruct (Hlook (Z.to_nat j')) as (score' & Hs' & Hex'); [lia|].
    rewrite Z2Nat.id in Hs', Hex' by lia.
    rewrite Hex' in Hr'. injection Hr' as <-.
    apply (Hmin (8 + 4 * j', score')).
    eapply list_elem_of_lookup_2. exact Hs'.
Qed.

(** The theorem on the small data set: of three jobs the first is best. *)
Lemma best_of_a_run_witness :
  exists (j : Z) (score : float),
    0 <= j < 3 /\
    executor Toy.small (8 + 4 * j) = Return (8 + 4 * j, score).
Proof.
  destruct (proj2 (best_of_a_run Toy.small (Toy.the_globals Toy.small)
                     (Toy.the_heap Toy.small) (Toy.the_refs Toy.small)
                     (Toy.the_cluster Toy.small Toy.out_of_order) 3
                     [(8, 0.390625%float); (12, 0.42361111111111116%float);
                      (16, 0.44140625%float)]
                     ltac:(vm_compute; repeat split; reflexivity)
                     ltac:(vm_compute; repeat split; reflexivity)
                     ltac:(left; vm_compute; reflexivity)) ltac:(lia))
    as (j & score & Hj & _ & Hex & _).
  exists j, score. split; assumption.
Defined.

(** ** The store of the cluster *)

Section StoreFacts.
Context `{Sklearn}.
Implicit Types (h : gmap loc pyobj) (d : SharedInput) (g : globals).
Implicit Types (c : cluster) (rg : ray_globals) (t : task) (r : ObjectRef).

Lemma complete_dom c r : dom (tasks (complete c r)) = dom (tasks c).
Proof.
  unfold complete. destruct (tasks c !! r) as [[t [| |]]|] eqn:Hr; try reflexivity.
  cbn. apply dom_insert_lookup_L. eauto.
Qed.

Lemma workers_dom (l : list ObjectRef) c :
  dom (tasks (workers l c)) = dom (tasks c).
Proof.
  revert c. induction l as [|r l IH]; intros c; [reflexivity|].
  cbn. unfold workers in IH. rewrite IH. apply complete_dom.
Qed.

Lemma tick_dom c : dom (tasks (tick c)) = dom (tasks c).
Proof.
  unfold tick. destruct (oracle c); [reflexivity|].
  rewrite workers_dom. reflexivity.
Qed.

Lemma fresh_ref_new c :
  objects c !! fresh_ref c = None /\ tasks c !! fresh_ref c = None.
Proof.
  pose proof (is_fresh (dom (objects c) ∪ dom (tasks c))) as Hf.
  fold (fresh_ref c) in Hf.
  split; apply not_elem_of_dom; intros Hin; apply Hf, elem_of_union; auto.
Qed.

Lemma remote_dom t c :
  dom (tasks (snd (remote t c))) = {[fresh_ref c]} ∪ dom (tasks c).
Proof. unfold remote. cbn. rewrite tick_dom. cbn. apply dom_insert_L. Qed.

Lemma ray_comprehension_handles (f : Z -> task) (js : list Z) :
  forall c,
    length (fst (ray_comprehension (fun j => remote (f j)) js c)) = length js /\
    NoDup (fst (ray_comprehension (fun j => remote (f j)) js c)) /\
    (forall r, r ∈ fst (ray_comprehension (fun j => remote (f j)) js c) ->
       objects c !! r = None /\ tasks c !! r = None) /\
    dom (tasks (snd (ray_comprehension (fun j => remote (f j)) js c)))
    = list_to_set (fst (ray_comprehension (fun j => remote (f j)) js c))
      ∪ dom (tasks c).
Proof.
  induction js as [|j js IH]; intros c.
  - cbn. split; [reflexivity|]. split; [constructor|].
    split; [intros r Hr; apply elem_of_nil in Hr; contradiction|].
    symmetry. apply (left_id_L ∅ (∪)).
  - rewrite ray_comprehension_cons.
    pose proof (remote_objects (f j) c) as Ho.
    pose proof (remote_dom (f j) c) as Hd.
    destruct (fresh_ref_new c) as (Hfo & Hft).
    assert (Hr0 : fst (remote (f j) c) = fresh_ref c) by reflexivity.
    destruct (remote (f j) c) as [r0 c1]. cbn [fst snd] in *. subst r0.
    destruct (IH c1) as (Hlen & Hnd & Hnew & Hdom).
    destruct (ray_comprehension _ js c1) as [rs c2]. cbn [fst snd] in *.
    assert (Hnew' : forall r, r ∈ rs ->
              r <> fresh_ref c /\ objects c !! r = None /\ tasks c !! r = None).
    { intros r Hr. destruct (Hnew r Hr) as (Hro & Hrt).
      rewrite Ho in Hro. apply not_elem_of_dom in Hrt. rewrite Hd in Hrt.
      split.
      { intros ->. apply Hrt, elem_of_union. left. apply elem_of_singleton.
        reflexivity. }
      split; [exact Hro|].
      apply not_elem_of_dom. intros Hin. apply Hrt, elem_of_union. auto. }
    split; [cbn; lia|]. split.
    { constructor; [|exact Hnd]. intros Hin.
      destruct (Hnew' _ Hin) as (Hne & _). contradiction. }
    split.
    { intros r Hr. apply elem_of_cons in Hr as [->|Hr]; [auto|].
      destruct (Hnew' r Hr) as (_ & Hro & Hrt). auto. }
    rewrite Hdom, Hd. cbn. rewrite !(assoc_L (∪)).
    f_equal. apply (comm_L (∪)).
Qed.

(** X3.  The parallel runner submits one task per job: the run leaves
    [n_models] new handles, pairwise distinct, the [i]-th standing for job
    [i]; it adds no other handle and leaves the tasks that were in the
    cluster standing for what they stood for; and when the run returns a
    ResultSet, the [i]-th handle is resolved with its [i]-th entry. *)
Theorem run_parallel_tasks c rg (n_models : Z) :
  exists results_ref : list ObjectRef,
    length results_ref = Z.to_nat n_models /\
    NoDup results_ref /\
    (forall r, r ∈ results_ref -> objects c !! r = None /\ tasks c !! r = None) /\
    (forall (i : nat) r, results_ref !! i = Some r ->
       submitted (objects c) (snd (run_parallel rg n_models c)) r
         (job rg (Z.of_nat i))) /\
    dom (tasks (snd (run_parallel rg n_models c)))
    = list_to_set results_ref ∪ dom (tasks c) /\
    (forall r t, submitted (objects c) c r t ->
       submitted (objects c) (snd (run_parallel rg n_models c)) r t) /\
    (forall rs : ResultSet,
       fst (run_parallel rg n_models c) = Some (Return rs) ->
       forall (i : nat) r, results_ref !! i = Some r ->
         exists res : JobResult,
           rs !! i = Some res /\
           tasks (snd (run_parallel rg n_models c)) !! r
           = Some (job rg (Z.of_nat i), Resolved res)).
Proof.
  unfold run_parallel.
  change (fun j : Z => remote _) with (fun j : Z => remote (job rg j)).
  destruct (ray_comprehension_submitted (objects c) (job rg) (range n_models) c
              eq_refl) as (Hobjs & Hall & Hkeep).
  destruct (ray_comprehension_handles (job rg) (range n_models) c)
    as (Hlen & Hnd & Hnew & Hdom).
  destruct (ray_comprehension _ (range n_models) c) as [results_ref c1].
  cbn [fst snd] in *. exists results_ref.
  split. { rewrite Hlen. unfold range. apply length_seqZ. }
  split; [exact Hnd|]. split; [exact Hnew|].
  unfold ray_get. cbn [fst snd].
  assert (Hdone : Forall2 (fun r j => completed (objects c)
                             (workers results_ref (tick c1)) r (job rg j))
                    results_ref (range n_models)).
  { apply workers_resolves_all.
    - rewrite tick_objects. exact Hobjs.
    - auto.
    - eapply Forall2_impl; [exact Hall|]. intros r j Hr.
      apply tick_submitted; [exact Hobjs|exact Hr]. }
  assert (Hat : forall (i : nat) r, results_ref !! i = Some r ->
            completed (objects c) (workers results_ref (tick c1)) r
              (job rg (Z.of_nat i))).
  { intros i r Hi.
    destruct (Forall2_lookup_l _ _ _ _ _ Hdone Hi) as (j & Hj & Hc).
    unfold range in Hj. apply lookup_seqZ in Hj as (-> & _).
    rewrite Z.add_0_l in Hc. exact Hc. }
  split.
  { intros i r Hi. exists (run_task (objects c) (job rg (Z.of_nat i))).
    split; [apply (Hat i r Hi)|]. right. reflexivity. }
  split.
  { rewrite workers_dom, tick_dom. exact Hdom. }
  split.
  { intros r t Hr. apply workers_submitted; [rewrite tick_objects; exact Hobjs|].
    apply tick_submitted; [exact Hobjs|]. apply Hkeep, Hr. }
  intros rs Hrs i r Hi.
  destruct (mapM (resolved (tasks (workers results_ref (tick c1)))) results_ref)
    as [os|] eqn:Hm; [|discriminate Hrs].
  cbn in Hrs. injection Hrs as Hrs. apply sequence_Return in Hrs. subst os.
  apply mapM_Some_1 in Hm.
  destruct (Forall2_lookup_l _ _ _ _ _ Hm Hi) as (o & Ho & Hres).
  apply list_lookup_fmap_Some in Ho as (res & -> & Hres_i).
  exists res. split; [exact Hres_i|].
  pose proof (Hat i r Hi) as Hc. unfold completed in Hc.
  unfold resolved in Hres. rewrite Hc in Hres. rewrite Hc.
  destruct (run_task (objects c) (job rg (Z.of_nat i))) as [|v|e'];
    [discriminate Hres| |discriminate Hres].
  injection Hres as ->. reflexivity.
Qed.

Lemma ray_put_store o c :
  objects (snd (ray_put o c)) = <[fst (ray_put o c) := o]> (objects c) /\
  dom (tasks (snd (ray_put o c))) = dom (tasks c) /\
  objects c !! fst (ray_put o c) = None /\
  tasks c !! fst (ray_put o c) = None.
Proof.
  unfold ray_put. cbn. rewrite tick_objects, tick_dom. cbn.
  destruct (fresh_ref_new c). auto.
Qed.

(** X8.  The four [ray.put] calls, on globals that hold the shared input:
    they succeed and give four references, pairwise distinct and new to the
    cluster, at which the store holds the shared input; the objects that
    were in the store stay, and no task is added. *)
Theorem put_shared_references h g d c :
  holds h g d ->
  exists rg c',
    put_shared g h c = Some (rg, c') /\
    shares c' rg d /\
    NoDup [X_train_ref rg; X_test_ref rg; y_train_ref rg; y_test_ref rg] /\
    (forall r,
       r ∈ [X_train_ref rg; X_test_ref rg; y_train_ref rg; y_test_ref rg] ->
       objects c !! r = None /\ tasks c !! r = None) /\
    objects c ⊆ objects c' /\
    dom (tasks c') = dom (tasks c).
Proof.
  intros (H1 & H2 & H3 & H4). unfold put_shared. rewrite H1, H2, H3, H4.
  cbn [mbind option_bind].
  destruct (ray_put_store (ODataFrame (train_set d)) c) as (O1 & D1 & N1 & T1).
  destruct (ray_put (ODataFrame (train_set d)) c) as [r1 c1]. cbn [fst snd] in *.
  destruct (ray_put_store (ODataFrame (test_set d)) c1) as (O2 & D2 & N2 & T2).
  destruct (ray_put (ODataFrame (test_set d)) c1) as [r2 c2]. cbn [fst snd] in *.
  destruct (ray_put_store (OSeries (train_labels d)) c2) as (O3 & D3 & N3 & T3).
  destruct (ray_put (OSeries (train_labels d)) c2) as [r3 c3]. cbn [fst snd] in *.
  destruct (ray_put_store (OSeries (test_labels d)) c3) as (O4 & D4 & N4 & T4).
  destruct (ray_put (OSeries (test_labels d)) c3) as [r4 c4]. cbn [fst snd] in *.
  assert (S1 : objects c ⊆ objects c1) by (rewrite O1; apply insert_subseteq, N1).
  assert (S2 : objects c1 ⊆ objects c2) by (rewrite O2; apply insert_subseteq, N2).
  assert (S3 : objects c2 ⊆ objects c3) by (rewrite O3; apply insert_subseteq, N3).
  assert (S4 : objects c3 ⊆ objects c4) by (rewrite O4; apply insert_subseteq, N4).
  assert (L1 : objects c1 !! r1 = Some (ODataFrame (train_set d)))
    by (rewrite O1; apply lookup_insert_eq).
  assert (L2 : objects c2 !! r2 = Some (ODataFrame (test_set d)))
    by (rewrite O2; apply lookup_insert_eq).
  assert (L3 : objects c3 !! r3 = Some (OSeries (train_labels d)))
    by (rewrite O3; apply lookup_insert_eq).
  assert (L4 : objects c4 !! r4 = Some (OSeries (test_labels d)))
    by (rewrite O4; apply lookup_insert_eq).
  assert (L12 : objects c2 !! r1 = Some (ODataFrame (train_set d)))
    by (eapply lookup_weaken; eassumption).
  assert (L13 : objects c3 !! r1 = Some (ODataFrame (train_set d)))
    by (eapply lookup_weaken; eassumption).
  assert (L23 : objects c3 !! r2 = Some (ODataFrame (test_set d)))
    by (eapply lookup_weaken; eassumption).
  assert (Hne12 : r1 <> r2) by congruence.
  assert (Hne13 : r1 <> r3) by congruence.
  assert (Hne23 : r2 <> r3) by congruence.
  assert (Hne14 : r1 <> r4) by congruence.
  assert (Hne24 : r2 <> r4) by congruence.
  assert (Hne34 : r3 <> r4) by congruence.
  assert (Hnone : forall (ca cb : cluster) r,
            objects ca ⊆ objects cb -> objects cb !! r = None ->
            objects ca !! r = None).
  { intros ca cb r Hsub Hr. destruct (objects ca !! r) as [o|] eqn:Ho; [|reflexivity].
    rewrite (lookup_weaken _ _ _ _ Ho Hsub) in Hr. discriminate Hr. }
  assert (Htask : forall (ca cb : cluster) r,
            dom (tasks cb) = dom (tasks ca) -> tasks cb !! r = None ->
            tasks ca !! r = None).
  { intros ca cb r Hd Hr. apply not_elem_of_dom. rewrite <- Hd.
    apply not_elem_of_dom. exact Hr. }
  eexists _, _. split; [reflexivity|]. unfold shares. cbn.
  split.
  { repeat split; try assumption; eapply lookup_weaken; eassumption. }
  split.
  { apply NoDup_cons. split.
    { intros Hin. apply elem_of_cons in Hin as [?|Hin]; [contradiction|].
      apply elem_of_cons in Hin as [?|Hin]; [contradiction|].
      apply list_elem_of_singleton in Hin. contradiction. }
    apply NoDup_cons. split.
    { intros Hin. apply elem_of_cons in Hin as [?|Hin]; [contradiction|].
      apply list_elem_of_singleton in Hin. contradiction. }
    apply NoDup_cons. split.
    { intros Hin. apply list_elem_of_singleton in Hin. contradiction. }
    apply NoDup_singleton. }
  split.
  { intros r Hr.
    assert (Hcases : r = r1 \/ r = r2 \/ r = r3 \/ r = r4).
    { apply elem_of_cons in Hr as [?|Hr]; [auto|].
      apply elem_of_cons in Hr as [?|Hr]; [auto|].
      apply elem_of_cons in Hr as [?|Hr]; [auto|].
      apply list_elem_of_singleton in Hr. auto. }
    destruct Hcases as [->|[->|[->| ->]]].
    - auto.
    - split; [eapply Hnone; [exact S1|exact N2]|].
      eapply Htask; [exact D1|exact T2].
    - split; [eapply Hnone; [etrans; [exact S1|exact S2]|exact N3]|].
      eapply Htask; [|exact T3]. congruence.
    - split; [eapply Hnone; [etrans; [exact S1|etrans; [exact S2|exact S3]]|exact N4]|].
      eapply Htask; [|exact T4]. congruence. }
  split; [|congruence].
  etrans; [exact S1|]. etrans; [exact S2|]. etrans; [exact S3|exact S4].
Qed.

End StoreFacts.

(** ** The further properties on the stand-in regressor *)

(** Stopping at the failure, on the large data set: job 1 fails, so three
    jobs are the first two. *)
Lemma run_sequential_stops_at_failure_witness :
  run_sequential (Toy.the_globals Toy.large) 3 (Toy.the_heap Toy.large)
  = run_sequential (Toy.the_globals Toy.large) (1 + 1) (Toy.the_heap Toy.large).
Proof.
  apply (run_sequential_stops_at_failure (Toy.the_heap Toy.large)
           (Toy.the_globals Toy.large) Toy.large 3 1
           (PyErr "MemoryError" "out of budget")).
  - vm_compute. repeat split; reflexivity.
  - lia.
  - reflexivity.
Defined.

(** Prefixes, on the small data set: two jobs give the first two of the
    three results of three jobs. *)
Lemma shorter_run_is_prefix_witness :
  fst (run_sequential (Toy.the_globals Toy.small) 2 (Toy.the_heap Toy.small))
  = Return (take (Z.to_nat 2)
              [(8, 0.390625%float); (12, 0.42361111111111116%float);
               (16, 0.44140625%float)]).
Proof.
  apply (proj1 (shorter_run_is_prefix (Toy.the_heap Toy.small)
                  (Toy.the_globals Toy.small) Toy.small
                  (Toy.the_cluster Toy.small Toy.out_of_order)
                  (Toy.the_refs Toy.small) 2 3 _
                  ltac:(vm_compute; repeat split; reflexivity)
                  ltac:(vm_compute; repeat split; reflexivity)
                  ltac:(lia))).
  vm_compute. reflexivity.
Defined.

(** Repeating runs, on the small data set: three jobs after two jobs, for
    the sequential runner and, with the workers out of order, for the
    parallel one. *)
Lemma runs_are_repeatable_witness :
  fst (run_sequential (Toy.the_globals Toy.small) 3
         (snd (run_sequential (Toy.the_globals Toy.small) 2
                 (Toy.the_heap Toy.small))))
  = fst (run_sequential (Toy.the_globals Toy.small) 3 (Toy.the_heap Toy.small)) /\
  fst (run_parallel (Toy.the_refs Toy.small) 3
         (snd (run_parallel (Toy.the_refs Toy.small) 2
                 (Toy.the_cluster Toy.small Toy.out_of_order))))
  = Some (Return [(8, 0.390625%float); (12, 0.42361111111111116%float);
                  (16, 0.44140625%float)]).
Proof.
  destruct (runs_are_repeatable (Toy.the_heap Toy.small)
              (Toy.the_globals Toy.small) Toy.small
              (Toy.the_cluster Toy.small Toy.out_of_order)
              (Toy.the_refs Toy.small) 2 3
              ltac:(vm_compute; repeat split; reflexivity)
              ltac:(vm_compute; repeat split; reflexivity))
    as (Hseq & Hpar & _).
  split; [exact Hseq|].
  apply Hpar. vm_compute. reflexivity.
Defined.

(** The origin of an exception, on the large data set: the sequential run
    of three jobs raises what the executor raises for one of them. *)
Lemma raised_by_some_job_witness :
  exists k : Z,
    0 <= k < 3 /\
    executor Toy.large (8 + 4 * k) = Raise (PyErr "MemoryError" "out of budget").
Proof.
  destruct (raised_by_some_job (Toy.the_heap Toy.large)
              (Toy.the_globals Toy.large) Toy.large
              3 (PyErr "MemoryError" "out of budget")
              ltac:(vm_compute; repeat split; reflexivity)
              ltac:(vm_compute; reflexivity))
    as (k & Hk & He & _).
  exists k. split; assumption.
Defined.

(** The four puts, on the small data set and a new cluster. *)
Lemma put_shared_references_witness :
  exists (rg : ray_globals) (c' : cluster),
    put_shared (Toy.the_globals Toy.small) (Toy.the_heap Toy.small) (ray_init [])
    = Some (rg, c') /\
    NoDup [X_train_ref rg; X_test_ref rg; y_train_ref rg; y_test_ref rg].
Proof.
  destruct (put_shared_references (Toy.the_heap Toy.small)
              (Toy.the_globals Toy.small) Toy.small (ray_init [])
              ltac:(vm_compute; repeat split; reflexivity))
    as (rg & c' & Hput & _ & Hnd & _).
  exists rg, c'. split; assumption.
Defined.
